(** * go-odoo-connector: a shallow embedding of the Odoo XML-RPC client

    The Go package [odoo] is a thin layer between typed function calls and
    XML-RPC invocations.  This development embeds [config.go] and
    [connector.go] as monadic programs over an explicit world (the heap of
    [Connector] objects, the trace of observable effects, and the state of
    everything outside the process), and proves the contract of the package
    against that embedding. *)

From stdpp Require Import gmap strings pretty list.

Set Warnings "-register-all".

(** Decimal rendering is computed on literals only, never simplified on
    variables. *)
Arguments pretty : simpl never.
Set Default Proof Using "Type".

Open Scope string_scope.
Open Scope Z_scope.

(** ** Go values *)

(** Pointers are addresses; [Connector] objects and [http.Transport] objects
    live in separate, typed address spaces. *)
Definition loc := nat.

(** The dynamic values that travel through [interface{}].  Slices and maps
    are nilable in Go, so each carries an [option]: [None] is the nil slice
    (or nil map), [Some []] the empty non-nil one.  The package carries
    integers, compares one with 0 and prints them; it never computes with
    them, so [int] and [int64] are [Z] and no wrap-around arises. *)
Inductive value : Type :=
| VNil
| VBool (b : bool)
| VInt (n : Z)
| VInt64 (n : Z)
| VString (s : string)
| VStrings (l : option (list string))
| VInt64s (l : option (list Z))
| VSlice (l : option (list value))
| VMap (m : option (gmap string value))
| VStringMap (m : option (gmap string string)).

(** [map[string]interface{}] *)
Abbreviation gomap := (option (gmap string value)) (only parsing).

(** The elements of a Go slice; the nil slice has none. *)
Definition elems {A} (s : option (list A)) : list A := default [] s.

(** ** Go errors *)

(** [Foreign] errors come from the libraries the package calls ([os],
    [encoding/json], [xmlrpc]); [errorString] and [wrapError] are the two
    shapes [fmt.Errorf] builds, without and with a [%w] verb. *)
Inductive error : Type :=
| Foreign (msg : string)
| errorString (msg : string)
| wrapError (msg : string) (err : error).

Definition Error (e : error) : string :=
  match e with
  | Foreign msg | errorString msg | wrapError msg _ => msg
  end.

Definition Unwrap (e : error) : option error :=
  match e with
  | wrapError _ err => Some err
  | _ => None
  end.

(** [fmt.Errorf(prefix + "%w", err)]: the message is the prefix followed by
    the text of the cause, and the cause is kept for [errors.Unwrap]. *)
Definition Errorf_w (prefix : string) (err : error) : error :=
  wrapError (prefix +:+ Error err) err.

(** ** The data model of the package *)

Module Config.
(** [type Config struct], config.go *)
Record t : Type := mk {
  URL : string;
  Username : string;
  APIKey : string;
  DB : string
}.
Definition zero : t := mk EmptyString EmptyString EmptyString EmptyString.
End Config.

(** [*xmlrpc.Client]: a handle on one endpoint, built from a URL and a
    transport. *)
Record Client : Type := mkClient {
  endpoint : string;
  transport : loc
}.

Module Connector.
(** [type Connector struct], connector.go *)
Record t : Type := mk {
  URL : string;
  Username : string;
  APIKey : string;
  DB : string;
  UID : Z;
  common : option Client;
  models : option Client
}.
Definition set_common (v : option Client) (c : t) : t :=
  mk (URL c) (Username c) (APIKey c) (DB c) (UID c) v (models c).
Definition set_models (v : option Client) (c : t) : t :=
  mk (URL c) (Username c) (APIKey c) (DB c) (UID c) (common c) v.
Definition set_UID (v : Z) (c : t) : t :=
  mk (URL c) (Username c) (APIKey c) (DB c) v (common c) (models c).
End Connector.

Module SearchReadOptions.
(** [type SearchReadOptions struct], connector.go *)
Record t : Type := mk {
  Fields : option (list string);
  Domain : option (list value);
  Offset : Z;
  Limit : Z;
  Order : string
}.
Definition set_Domain (v : option (list value)) (o : t) : t :=
  mk (Fields o) v (Offset o) (Limit o) (Order o).
End SearchReadOptions.

(** ** Destinations of a remote call *)

(** [Call(method, args, &result)] decodes the answer into a typed variable.
    [dest] names the static type of that variable and [reply] is the Go type
    it stands for. *)
Inductive dest : Type := DInt | DInt64 | DBool | DRecords | DAny.

Definition reply (d : dest) : Type :=
  match d with
  | DInt | DInt64 => Z
  | DBool => bool
  | DRecords => option (list gomap)
  | DAny => value
  end.

(** The zero value a [var] declaration starts from. *)
Definition zero (d : dest) : reply d :=
  match d with
  | DInt | DInt64 => 0
  | DBool => false
  | DRecords => None
  | DAny => VNil
  end.

(** ** Observable effects *)

Inductive field : Type := f_common | f_models | f_UID.

Inductive event : Type :=
| EvReadFile (path : string)
| EvNewClient (url : string) (tr : loc)
| EvCall (cl : Client) (method : string) (args : list value)
| EvAssign (c : loc) (f : field)
| EvLog (line : string).

(** ** The platform

    What lies outside the package: the file system, the JSON decoder and the
    XML-RPC library with the server behind it.  [ext] is the state of all of
    it; every operation may change it. *)
Class Platform : Type := {
  ext : Type;
  (** [os.ReadFile]: the bytes read and the error *)
  platform_ReadFile : string → ext → (string * option error) * ext;
  (** [json.Unmarshal(data, &config)]: the variable afterwards and the error *)
  platform_Unmarshal : string → Config.t → Config.t * option error;
  (** [xmlrpc.NewClient(url, transport)]: the error, if the handle could not
      be built *)
  platform_NewClient : string → loc → ext → option error * ext;
  (** [client.Call(method, args, &result)]: the variable afterwards and the
      error *)
  platform_Call : ∀ d : dest,
    Client → string → list value → reply d → ext → (reply d * option error) * ext
}.

(** A call either returns or panics (nil pointer dereference). *)
Inductive outcome (A : Type) : Type :=
| Returns (a : A)
| Panics.
Arguments Returns {A} a.
Arguments Panics {A}.

Section Odoo.
Context `{P : Platform}.

(** ** Worlds and the monad of Go programs *)

Record world : Type := World {
  heap : gmap loc Connector.t;
  transports : nat;
  trace : list event;
  outside : ext
}.

Definition set_heap (h : gmap loc Connector.t) (w : world) : world :=
  World h (transports w) (trace w) (outside w).
Definition set_transports (n : nat) (w : world) : world :=
  World (heap w) n (trace w) (outside w).
Definition set_trace (t : list event) (w : world) : world :=
  World (heap w) (transports w) t (outside w).
Definition set_outside (x : ext) (w : world) : world :=
  World (heap w) (transports w) (trace w) x.

Definition M (A : Type) : Type := world → outcome A * world.

#[export] Instance M_ret : MRet M := λ A a w, (Returns a, w).
#[export] Instance M_bind : MBind M := λ A B f m w,
  match m w with
  | (Returns a, w') => f a w'
  | (Panics, w') => (Panics, w')
  end.

Definition panic {A} : M A := λ w, (Panics, w).

Definition emit (e : event) : M unit :=
  λ w, (Returns (), set_trace (trace w ++ [e])%list w).

(** [&Connector{...}] *)
Definition new_Connector (c : Connector.t) : M loc := λ w,
  let l := fresh (dom (heap w)) in
  (Returns l, set_heap (<[l := c]> (heap w)) w).

(** [*c] *)
Definition load (c : loc) : M Connector.t := λ w,
  match heap w !! c with
  | Some v => (Returns v, w)
  | None => (Panics, w)
  end.

Definition store (c : loc) (v : Connector.t) : M unit := λ w,
  (Returns (), set_heap (<[c := v]> (heap w)) w).

(** [c.f = v] *)
Definition assign (c : loc) (f : field) (upd : Connector.t → Connector.t) : M unit :=
  v ← load c;
  _ ← emit (EvAssign c f);
  store c (upd v).

(** [&http.Transport{}] *)
Definition new_Transport : M loc := λ w,
  (Returns (transports w), set_transports (S (transports w)) w).

Definition os_ReadFile (path : string) : M (string * option error) := λ w,
  let '(r, x) := platform_ReadFile path (outside w) in
  (Returns r, set_outside x (set_trace (trace w ++ [EvReadFile path])%list w)).

Definition xmlrpc_NewClient (url : string) (tr : loc) : M (option Client * option error) := λ w,
  let '(err, x) := platform_NewClient url tr (outside w) in
  let w' := set_outside x (set_trace (trace w ++ [EvNewClient url tr])%list w) in
  match err with
  | Some err => (Returns (None, Some err), w')
  | None => (Returns (Some (mkClient url tr), None), w')
  end.

(** [cl.Call(method, args, &result)], where [result] currently holds [cur].
    A nil handle panics before anything is sent. *)
Definition Client_Call (cl : option Client) (method : string) (args : list value)
    (d : dest) (cur : reply d) : M (reply d * option error) := λ w,
  match cl with
  | None => (Panics, w)
  | Some cl =>
      let '(r, x) := platform_Call d cl method args cur (outside w) in
      (Returns r, set_outside x (set_trace (trace w ++ [EvCall cl method args])%list w))
  end.

Definition log_Printf (line : string) : M unit := emit (EvLog line).

(** ** config.go *)

Definition LoadConfig (path : string) : M (option Config.t * option error) :=
  '(data, err) ← os_ReadFile path;
  match err with
  | Some err => mret (None, Some (Errorf_w "failed to read config file: " err))
  | None =>
      let '(config, err) := platform_Unmarshal data Config.zero in
      match err with
      | Some err => mret (None, Some (Errorf_w "failed to parse config file: " err))
      | None =>
          if String.eqb (Config.URL config) EmptyString then
            mret (None, Some (errorString "URL is required in config"))
          else if String.eqb (Config.Username config) EmptyString then
            mret (None, Some (errorString "username is required in config"))
          else if String.eqb (Config.APIKey config) EmptyString then
            mret (None, Some (errorString "API key is required in config"))
          else if String.eqb (Config.DB config) EmptyString then
            mret (None, Some (errorString "database name is required in config"))
          else
            mret (Some config, None)
      end
  end.

(** ** connector.go *)

Definition NewConnector (url username apiKey db : string) : M (option loc * option error) :=
  c ← new_Connector (Connector.mk url username apiKey db 0 None None);
  tr ← new_Transport;
  '(cl, err) ← xmlrpc_NewClient (url +:+ "/xmlrpc/2/common") tr;
  _ ← assign c f_common (Connector.set_common cl);
  match err with
  | Some err => mret (None, Some (Errorf_w "failed to connect to common endpoint: " err))
  | None =>
      '(cl, err) ← xmlrpc_NewClient (url +:+ "/xmlrpc/2/object") tr;
      _ ← assign c f_models (Connector.set_models cl);
      match err with
      | Some err => mret (None, Some (Errorf_w "failed to connect to models endpoint: " err))
      | None =>
          self ← load c;
          '(uid, err) ← Client_Call (Connector.common self) "authenticate"
                          [VString db; VString username; VString apiKey;
                           VStringMap (Some ∅)] DInt (zero DInt);
          match err with
          | Some err => mret (None, Some (Errorf_w "authentication failed: " err))
          | None =>
              if Z.eqb uid 0 then
                mret (None, Some (errorString "authentication failed: invalid credentials"))
              else
                _ ← assign c f_UID (Connector.set_UID uid);
                _ ← log_Printf ("Successfully initialized Odoo connector with UID: " +:+ pretty uid);
                mret (Some c, None)
          end
      end
  end.

Definition NewConnectorFromConfig (configPath : string) : M (option loc * option error) :=
  '(config, err) ← LoadConfig configPath;
  match err with
  | Some err => mret (None, Some err)
  | None =>
      match config with
      | None => panic
      | Some config =>
          NewConnector (Config.URL config) (Config.Username config)
                       (Config.APIKey config) (Config.DB config)
      end
  end.

Definition SearchReadRecords (c : loc) (model : string) (opts : SearchReadOptions.t)
    : M (option (list gomap) * option error) :=
  let opts :=
    match SearchReadOptions.Domain opts with
    | None => SearchReadOptions.set_Domain (Some []) opts
    | Some _ => opts
    end in
  let params : gmap string value :=
    {[ "fields" := VStrings (SearchReadOptions.Fields opts);
       "offset" := VInt (SearchReadOptions.Offset opts);
       "limit" := VInt (SearchReadOptions.Limit opts);
       "order" := VString (SearchReadOptions.Order opts) ]} in
  self ← load c;
  '(result, err) ← Client_Call (Connector.models self) "execute_kw"
                     [VString (Connector.DB self); VInt (Connector.UID self);
                      VString (Connector.APIKey self);
                      VString model; VString "search_read";
                      VSlice (Some [VSlice (SearchReadOptions.Domain opts)]);
                      VMap (Some params)] DRecords (zero DRecords);
  match err with
  | Some err =>
      mret (None, Some (Errorf_w ("search_read failed for model " +:+ model +:+ ": ") err))
  | None => mret (result, None)
  end.

Definition CreateRecord (c : loc) (model : string) (values : gomap)
    : M (Z * option error) :=
  self ← load c;
  '(id, err) ← Client_Call (Connector.models self) "execute_kw"
                 [VString (Connector.DB self); VInt (Connector.UID self);
                  VString (Connector.APIKey self);
                  VString model; VString "create";
                  VSlice (Some [VMap values])] DInt64 (zero DInt64);
  match err with
  | Some err =>
      mret (0, Some (Errorf_w ("create failed for model " +:+ model +:+ ": ") err))
  | None => mret (id, None)
  end.

Definition UpdateRecord (c : loc) (model : string) (id : Z) (values : gomap)
    : M (option error) :=
  self ← load c;
  '(result, err) ← Client_Call (Connector.models self) "execute_kw"
                     [VString (Connector.DB self); VInt (Connector.UID self);
                      VString (Connector.APIKey self);
                      VString model; VString "write";
                      VSlice (Some [VInt64s (Some [id]); VMap values])] DBool (zero DBool);
  match err with
  | Some err =>
      mret (Some (Errorf_w ("update failed for model " +:+ model +:+ " with id "
                            +:+ pretty id +:+ ": ") err))
  | None =>
      if negb result then
        mret (Some (errorString ("update failed for model " +:+ model +:+ " with id "
                                 +:+ pretty id +:+ ": no record updated")))
      else mret None
  end.

Definition DeleteRecord (c : loc) (model : string) (id : Z) : M (option error) :=
  self ← load c;
  '(result, err) ← Client_Call (Connector.models self) "execute_kw"
                     [VString (Connector.DB self); VInt (Connector.UID self);
                      VString (Connector.APIKey self);
                      VString model; VString "unlink";
                      VSlice (Some [VInt64s (Some [id])])] DBool (zero DBool);
  match err with
  | Some err =>
      mret (Some (Errorf_w ("delete failed for model " +:+ model +:+ " with id "
                            +:+ pretty id +:+ ": ") err))
  | None =>
      if negb result then
        mret (Some (errorString ("delete failed for model " +:+ model +:+ " with id "
                                 +:+ pretty id +:+ ": no record deleted")))
      else mret None
  end.

Definition ExecuteMethod (c : loc) (model method : string)
    (args : option (list value)) (kwargs : gomap) : M (value * option error) :=
  self ← load c;
  let callArgs :=
    [VString (Connector.DB self); VInt (Connector.UID self);
     VString (Connector.APIKey self);
     VString model; VString method;
     VSlice args] in
  let callArgs :=
    match kwargs with
    | Some _ => (callArgs ++ [VMap kwargs])%list
    | None => callArgs
    end in
  '(result, err) ← Client_Call (Connector.models self) "execute_kw" callArgs DAny (zero DAny);
  match err with
  | Some err =>
      mret (VNil, Some (Errorf_w ("method execution failed for " +:+ model +:+ "."
                                  +:+ method +:+ ": ") err))
  | None => mret (result, None)
  end.

End Odoo.

Arguments world {P}.
Arguments M {P} A.

(** * Vocabulary of the contract *)

(** ** Reading a trace *)

(** The endpoints opened, with the transport each was given. *)
Definition endpoints_opened (t : list event) : list (string * loc) :=
  omap (λ e, match e with EvNewClient url tr => Some (url, tr) | _ => None end) t.

(** The remote calls issued: handle, method name, argument list. *)
Definition remote_calls (t : list event) : list (Client * string * list value) :=
  omap (λ e, match e with
             | EvCall cl method args => Some (cl, method, args)
             | _ => None
             end) t.

(** The objects whose [UID] field was assigned, one entry per assignment. *)
Definition UID_assignments (t : list event) : list loc :=
  omap (λ e, match e with EvAssign c f_UID => Some c | _ => None end) t.

(** ** Validation order of the configuration *)

Inductive config_field : Type := url_field | username_field | api_key_field | db_field.

Definition check_order : list config_field :=
  [url_field; username_field; api_key_field; db_field].

Definition field_value (config : Config.t) (f : config_field) : string :=
  match f with
  | url_field => Config.URL config
  | username_field => Config.Username config
  | api_key_field => Config.APIKey config
  | db_field => Config.DB config
  end.

(** The first field, in check order, that is empty. *)
Definition first_empty (config : Config.t) : option config_field :=
  find (λ f, bool_decide (field_value config f = EmptyString)) check_order.

(** The validation error that names a field. *)
Definition required (f : config_field) : error :=
  errorString (match f with
               | url_field => "URL"
               | username_field => "username"
               | api_key_field => "API key"
               | db_field => "database name"
               end +:+ " is required in config").

(** ** The two failure modes of a boolean operation

    [answer] is what the remote call left in [result] and returned as error;
    [out] is what the operation hands back; [logical] is the message of the
    failure that is not a transport failure. *)
Definition dual_failure (answer : bool * option error)
    (out : outcome (option error)) (logical : string) : Prop :=
  match answer with
  | (_, Some e) =>
      ∃ err, out = Returns (Some err) ∧ Unwrap err = Some e ∧
             err ≠ errorString logical
  | (false, None) =>
      out = Returns (Some (errorString logical)) ∧
      Unwrap (errorString logical) = None
  | (true, None) => out = Returns None
  end.

Section Vocabulary.
Context `{P : Platform}.

(** The positional arguments every [execute_kw] call starts with. *)
Definition credentials (self : Connector.t) : list value :=
  [VString (Connector.DB self); VInt (Connector.UID self);
   VString (Connector.APIKey self)].

(** The world after one remote call on [cl] answered by the platform. *)
Definition after_call (w : world) (cl : Client) (method : string)
    (args : list value) (x : ext) : world :=
  set_outside x (set_trace (trace w ++ [EvCall cl method args])%list w).

(** A receiver that is nil, or whose data handle is nil, makes every record
    operation panic before anything is sent. *)
Definition unusable (w : world) (c : loc) : Prop :=
  match heap w !! c with
  | None => True
  | Some self => Connector.models self = None
  end.

(** A world is left as it was, apart from the trace and the outside: no
    [Connector] is created or changed, no field is assigned. *)
Definition framed (w w' : world) : Prop :=
  heap w' = heap w ∧ transports w' = transports w ∧
  UID_assignments (trace w') = UID_assignments (trace w) ∧
  ∀ c f, EvAssign c f ∈ trace w' → EvAssign c f ∈ trace w.

End Vocabulary.

(** * A stub platform

    A server that answers every call the same way, a file system with a few
    configuration files, and a decoder that knows their contents.  The
    outside state counts the requests served. *)
Module Stub.

Definition lead : gmap string value :=
  {[ "id" := VInt 1; "name" := VString "First lead" ]}.

(** What the server answers, by destination type. *)
Definition answer (uid : Z) (ok : bool) (d : dest) : reply d :=
  match d with
  | DInt => uid
  | DInt64 => 42
  | DBool => ok
  | DRecords => Some [Some lead]
  | DAny => VString "done"
  end.

Definition full : string := "{url: http://x, username: u, api_key: k, db: d}".
Definition nokey : string := "{url: http://x, username: u, db: d}".
Definition onlydb : string := "{db: d}".

Definition files : gmap string string :=
  {[ "config.json" := full; "nokey.json" := nokey; "onlydb.json" := onlydb;
     "broken.json" := "{url:" ]}.

Definition read (path : string) : string * option error :=
  match files !! path with
  | Some data => (data, None)
  | None => (EmptyString, Some (Foreign ("open " +:+ path +:+ ": no such file or directory")))
  end.

Definition unmarshal (data : string) (config : Config.t) : Config.t * option error :=
  if String.eqb data full then (Config.mk "http://x" "u" "k" "d", None)
  else if String.eqb data nokey then (Config.mk "http://x" "u" EmptyString "d", None)
  else if String.eqb data onlydb then (Config.mk EmptyString EmptyString EmptyString "d", None)
  else (config, Some (Foreign "unexpected end of JSON input")).

Definition dial (url : string) : option error :=
  if String.prefix "http" url then None
  else Some (Foreign "parse: missing protocol scheme").

(** The platform whose server authenticates as [uid], answers boolean
    calls with [ok], and whose data service is down with [down]. *)
Definition platform (uid : Z) (ok : bool) (down : option error) : Platform := {|
  ext := nat;
  platform_ReadFile := λ path n, (read path, n);
  platform_Unmarshal := unmarshal;
  platform_NewClient := λ url tr n, (dial url, n);
  platform_Call := λ d cl method args cur n,
    (match down with
     | Some e =>
         if String.eqb method "authenticate" then (answer uid ok d, None)
         else (cur, Some e)
     | None => (answer uid ok d, None)
     end, S n)
|}.

Definition boot (P : Platform) (x : ext) : world := World ∅ 0%nat [] x.

(** A connector as [NewConnector "http://x" "u" "k" "d"] leaves it after
    authenticating as 7, at address 0. *)
Definition connector : Connector.t :=
  Connector.mk "http://x" "u" "k" "d" 7
    (Some (mkClient "http://x/xmlrpc/2/common" 0%nat))
    (Some (mkClient "http://x/xmlrpc/2/object" 0%nat)).

Definition ready (P : Platform) (x : ext) : world :=
  World {[ 0%nat := connector ]} 1%nat [] x.

Definition timeout : error := Foreign "i/o timeout".

End Stub.

(** The servers and requests of the scenarios below. *)
Module Scenario.
Import Stub.

(** Authenticates as 7, boolean calls answer true, nothing is down. *)
Definition good : Platform := platform 7 true None.
(** Boolean calls answer false. *)
Definition refusing : Platform := platform 7 false None.
(** The data service times out. *)
Definition down : Platform := platform 7 true (Some timeout).
(** Authenticates with a negative session identifier. *)
Definition negative : Platform := platform (-1) true None.
(** Answers "authenticate" with 0. *)
Definition rejecting : Platform := platform 0 true None.

Definition opts : SearchReadOptions.t :=
  SearchReadOptions.mk (Some ["id"; "name"]) None 0 10 "create_date desc".

Definition object : Client := mkClient "http://x/xmlrpc/2/object" 0%nat.
End Scenario.

(** * Callers: the examples of the package (package odoo_test)

    The two example programs build a connector, search the leads and print
    one line per lead.  Standard output is the list of chunks written,
    handed back with the way the program ended; [fmt]'s rendering of a value
    under [%v] belongs to the platform's side and is a parameter. *)

(** How a program ends: by returning, or through [os.Exit]. *)
Inductive ending : Type :=
| Returned
| Exit (code : Z).

(** [m[key]] on a [map[string]interface{}]: a nil map or a missing key
    gives the nil interface. *)
Definition index (m : gomap) (key : string) : value :=
  match m with
  | Some m => default VNil (m !! key)
  | None => VNil
  end.

(** The line feed. *)
Definition newline : string := String (Ascii.ascii_of_nat 10) EmptyString.

Section Examples.
Context `{P : Platform}.
Variable Sprint_v : value → string.

(** [log.Fatal(err)]: the text of the error goes to the logger, then the
    program exits with status 1. *)
Definition log_Fatal (err : error) : M ending :=
  _ ← log_Printf (Error err);
  mret (Exit 1).

(** [for _, lead := range leads { fmt.Printf("Lead: %v\n", lead["name"]) }],
    continuing the output written so far. *)
Fixpoint range_leads (leads : list gomap) (stdout : list string) : list string :=
  match leads with
  | [] => stdout
  | lead :: rest =>
      range_leads rest
        (stdout ++ ["Lead: " +:+ Sprint_v (index lead "name") +:+ newline])
  end.

(** The chunk one [fmt.Printf("Lead: %v\n", name)] writes, for reading the
    output. *)
Definition lead_line (lead : gomap) : string :=
  "Lead: " +:+ Sprint_v (index lead "name") +:+ newline.

(** A method call on a nil [*Connector] panics at its first field access,
    before any effect. *)
Definition on_Connector {A} (connector : option loc) (method : loc → M A) : M A :=
  match connector with
  | Some c => method c
  | None => panic
  end.

Definition Example : M (list string * ending) :=
  '(connector, err) ← NewConnector "https://your-odoo-instance.com"
                        "your-username" "your-api-key" "your-database";
  match err with
  | Some err => e ← log_Fatal err; mret ([], e)
  | None =>
      '(leads, err) ← on_Connector connector (λ c,
          SearchReadRecords c "crm.lead"
            (SearchReadOptions.mk
               (Some ["id"; "name"; "email_from"])
               (Some [VSlice (Some [VString "type"; VString "="; VString "lead"])])
               0 10 "create_date desc"));
      match err with
      | Some err => e ← log_Fatal err; mret ([], e)
      | None => mret (range_leads (elems leads) [], Returned)
      end
  end.

Definition ExampleNewConnectorFromConfig : M (list string * ending) :=
  '(connector, err) ← NewConnectorFromConfig "config.json";
  match err with
  | Some err => e ← log_Fatal err; mret ([], e)
  | None =>
      let opts :=
        SearchReadOptions.mk
          (Some ["id"; "name"])
          (Some [VSlice (Some [VString "stage_id.name"; VString "="; VString "New"])])
          0 0 EmptyString in
      '(leads, err) ← on_Connector connector (λ c,
          SearchReadRecords c "crm.lead" opts);
      match err with
      | Some err => e ← log_Fatal err; mret ([], e)
      | None => mret (range_leads (elems leads) [], Returned)
      end
  end.

End Examples.

(** ** More ways to read a trace *)

(** The lines handed to the logger. *)
Definition log_lines (t : list event) : list string :=
  omap (λ e, match e with EvLog line => Some line | _ => None end) t.

(** The files read. *)
Definition files_read (t : list event) : list string :=
  omap (λ e, match e with EvReadFile path => Some path | _ => None end) t.

(** ** More scenarios *)

Module Outage.
(** A platform on which handles can be built but every remote call times
    out, "authenticate" included. *)
Definition platform : Platform := {|
  ext := nat;
  platform_ReadFile := λ path n, (Stub.read path, n);
  platform_Unmarshal := Stub.unmarshal;
  platform_NewClient := λ url tr n, (Stub.dial url, n);
  platform_Call := λ d cl method args cur n, ((cur, Some Stub.timeout), S n)
|}.

(** A world with the connector of the stub at address 0, a history and a
    server state of its own. *)
Definition later (P : Platform) (x : ext) : world :=
  World {[ 0%nat := Stub.connector ]} 4%nat [EvLog "an earlier line"] x.
End Outage.

(** * Proof tools *)

(** Unfolding a program down to its steps on the world. *)
Ltac unfold_prims :=
  unfold assign, log_Printf, emit, store, load, new_Connector, new_Transport,
    os_ReadFile, xmlrpc_NewClient, Client_Call, panic.
Ltac run :=
  repeat progress (unfold mbind, M_bind, mret, M_ret; unfold_prims; simpl).

(** Closed facts are settled by evaluation. *)
Ltac evaluate := vm_compute; reflexivity.
Ltac conclude H := vm_compute in H; vm_compute; exact H.

(** * Properties *)

Section Properties.
Context `{P : Platform}.

(** ** Record operations, one call each *)

Lemma SearchReadRecords_run (w : world) c self cl model opts :
  heap w !! c = Some self →
  Connector.models self = Some cl →
  let args := (credentials self ++
    [VString model; VString "search_read";
     VSlice (Some [VSlice (Some (elems (SearchReadOptions.Domain opts)))]);
     VMap (Some {[ "fields" := VStrings (SearchReadOptions.Fields opts);
                   "offset" := VInt (SearchReadOptions.Offset opts);
                   "limit" := VInt (SearchReadOptions.Limit opts);
                   "order" := VString (SearchReadOptions.Order opts) ]})])%list in
  let answer := platform_Call DRecords cl "execute_kw" args None (outside w) in
  SearchReadRecords c model opts w =
    (Returns (match answer.1.2 with
              | Some e => (None, Some (Errorf_w ("search_read failed for model "
                                                 +:+ model +:+ ": ") e))
              | None => (answer.1.1, None)
              end),
     after_call w cl "execute_kw" args answer.2).
Proof.
  intros Hc Hm. unfold SearchReadRecords. run. rewrite Hc, Hm. simpl.
  destruct opts as [fs [dom|] off lim ord]; simpl;
    destruct (platform_Call _ _ _ _ _ _) as [[res [e|]] x]; reflexivity.
Qed.

Lemma CreateRecord_run (w : world) c self cl model values :
  heap w !! c = Some self →
  Connector.models self = Some cl →
  let args := (credentials self ++
    [VString model; VString "create"; VSlice (Some [VMap values])])%list in
  let answer := platform_Call DInt64 cl "execute_kw" args 0 (outside w) in
  CreateRecord c model values w =
    (Returns (match answer.1.2 with
              | Some e => (0, Some (Errorf_w ("create failed for model "
                                              +:+ model +:+ ": ") e))
              | None => (answer.1.1, None)
              end),
     after_call w cl "execute_kw" args answer.2).
Proof.
  intros Hc Hm. unfold CreateRecord. run. rewrite Hc, Hm. simpl.
  destruct (platform_Call _ _ _ _ _ _) as [[res [e|]] x]; reflexivity.
Qed.

Lemma UpdateRecord_run (w : world) c self cl model id values :
  heap w !! c = Some self →
  Connector.models self = Some cl →
  let args := (credentials self ++
    [VString model; VString "write";
     VSlice (Some [VInt64s (Some [id]); VMap values])])%list in
  let answer := platform_Call DBool cl "execute_kw" args false (outside w) in
  UpdateRecord c model id values w =
    (Returns (match answer.1.2 with
              | Some e => Some (Errorf_w ("update failed for model " +:+ model
                                          +:+ " with id " +:+ pretty id +:+ ": ") e)
              | None =>
                  if answer.1.1 then None
                  else Some (errorString ("update failed for model " +:+ model
                               +:+ " with id " +:+ pretty id +:+ ": no record updated"))
              end),
     after_call w cl "execute_kw" args answer.2).
Proof.
  intros Hc Hm. unfold UpdateRecord. run. rewrite Hc, Hm. simpl.
  destruct (platform_Call _ _ _ _ _ _) as [[[|] [e|]] x]; reflexivity.
Qed.

Lemma DeleteRecord_run (w : world) c self cl model id :
  heap w !! c = Some self →
  Connector.models self = Some cl →
  let args := (credentials self ++
    [VString model; VString "unlink";
     VSlice (Some [VInt64s (Some [id])])])%list in
  let answer := platform_Call DBool cl "execute_kw" args false (outside w) in
  DeleteRecord c model id w =
    (Returns (match answer.1.2 with
              | Some e => Some (Errorf_w ("delete failed for model " +:+ model
                                          +:+ " with id " +:+ pretty id +:+ ": ") e)
              | None =>
                  if answer.1.1 then None
                  else Some (errorString ("delete failed for model " +:+ model
                               +:+ " with id " +:+ pretty id +:+ ": no record deleted"))
              end),
     after_call w cl "execute_kw" args answer.2).
Proof.
  intros Hc Hm. unfold DeleteRecord. run. rewrite Hc, Hm. simpl.
  destruct (platform_Call _ _ _ _ _ _) as [[[|] [e|]] x]; reflexivity.
Qed.

Lemma ExecuteMethod_run (w : world) c self cl model method args kwargs :
  heap w !! c = Some self →
  Connector.models self = Some cl →
  let callArgs := (credentials self ++
    [VString model; VString method; VSlice args] ++
    match kwargs with Some m => [VMap (Some m)] | None => [] end)%list in
  let answer := platform_Call DAny cl "execute_kw" callArgs VNil (outside w) in
  ExecuteMethod c model method args kwargs w =
    (Returns (match answer.1.2 with
              | Some e => (VNil, Some (Errorf_w ("method execution failed for "
                                         +:+ model +:+ "." +:+ method +:+ ": ") e))
              | None => (answer.1.1, None)
              end),
     after_call w cl "execute_kw" callArgs answer.2).
Proof.
  intros Hc Hm. unfold ExecuteMethod. run. rewrite Hc, Hm. simpl.
  destruct kwargs as [m|]; simpl;
    destruct (platform_Call _ _ _ _ _ _) as [[res [e|]] x]; reflexivity.
Qed.

Lemma usable_dec (w : world) c :
  unusable w c ∨ ∃ self cl, heap w !! c = Some self ∧ Connector.models self = Some cl.
Proof.
  unfold unusable. destruct (heap w !! c) as [self|]; [|by left].
  destruct (Connector.models self) as [cl|] eqn:Hm; [right; eauto | by left].
Qed.

Lemma record_ops_panic (w : world) c :
  unusable w c →
  (∀ model opts, SearchReadRecords c model opts w = (Panics, w)) ∧
  (∀ model values, CreateRecord c model values w = (Panics, w)) ∧
  (∀ model id values, UpdateRecord c model id values w = (Panics, w)) ∧
  (∀ model id, DeleteRecord c model id w = (Panics, w)) ∧
  (∀ model method args kwargs, ExecuteMethod c model method args kwargs w = (Panics, w)).
Proof.
  unfold unusable. intros Hu.
  repeat split; intros;
    unfold SearchReadRecords, CreateRecord, UpdateRecord, DeleteRecord, ExecuteMethod;
    run; destruct (heap w !! c) as [self|]; simpl; try reflexivity;
    rewrite Hu; reflexivity.
Qed.

(** ** Construction *)

(** Each primitive, as an equation on worlds. *)
Lemma bind_run {A B} (m : M A) (f : A → M B) (w : world) :
  (m ≫= f) w =
    match m w with
    | (Returns a, w') => f a w'
    | (Panics, w') => (Panics, w')
    end.
Proof. reflexivity. Qed.

Lemma new_Connector_run (v : Connector.t) (w : world) :
  new_Connector v w =
    (Returns (fresh (dom (heap w))),
     World (<[fresh (dom (heap w)) := v]> (heap w)) (transports w) (trace w) (outside w)).
Proof. reflexivity. Qed.

Lemma new_Transport_run (w : world) :
  new_Transport w =
    (Returns (transports w),
     World (heap w) (S (transports w)) (trace w) (outside w)).
Proof. reflexivity. Qed.

Lemma load_run (w : world) c v :
  heap w !! c = Some v → load c w = (Returns v, w).
Proof. intros H. unfold load. by rewrite H. Qed.

Lemma assign_run (w : world) c f upd v :
  heap w !! c = Some v →
  assign c f upd w =
    (Returns (),
     World (<[c := upd v]> (heap w)) (transports w)
           (trace w ++ [EvAssign c f]) (outside w)).
Proof.
  intros H. unfold assign. rewrite bind_run, (load_run w c v H). reflexivity.
Qed.

Lemma xmlrpc_NewClient_run (w : world) url tr :
  let d := platform_NewClient url tr (outside w) in
  xmlrpc_NewClient url tr w =
    (Returns (match d.1 with
              | Some e => (None, Some e)
              | None => (Some (mkClient url tr), None)
              end),
     World (heap w) (transports w) (trace w ++ [EvNewClient url tr]) d.2).
Proof.
  intros d. unfold xmlrpc_NewClient. fold d. by destruct d as [[e|] x].
Qed.

Lemma Client_Call_run (w : world) cl method args d cur :
  let a := platform_Call d cl method args cur (outside w) in
  Client_Call (Some cl) method args d cur w =
    (Returns a.1,
     World (heap w) (transports w) (trace w ++ [EvCall cl method args]) a.2).
Proof.
  intros a. unfold Client_Call. fold a. by destruct a as [r x].
Qed.

Lemma log_Printf_run (w : world) line :
  log_Printf line w =
    (Returns (), World (heap w) (transports w) (trace w ++ [EvLog line]) (outside w)).
Proof. reflexivity. Qed.

Lemma NewConnector_run (w : world) url username apiKey db :
  let c := fresh (dom (heap w)) in
  let tr := transports w in
  let cl1 := mkClient (url +:+ "/xmlrpc/2/common") tr in
  let cl2 := mkClient (url +:+ "/xmlrpc/2/object") tr in
  let auth := [VString db; VString username; VString apiKey; VStringMap (Some ∅)] in
  let d1 := platform_NewClient (url +:+ "/xmlrpc/2/common") tr (outside w) in
  let d2 := platform_NewClient (url +:+ "/xmlrpc/2/object") tr d1.2 in
  let a := platform_Call DInt cl1 "authenticate" auth 0 d2.2 in
  let obj := Connector.mk url username apiKey db in
  let t1 := [EvNewClient (url +:+ "/xmlrpc/2/common") tr; EvAssign c f_common] in
  let t2 := [EvNewClient (url +:+ "/xmlrpc/2/object") tr; EvAssign c f_models] in
  let t3 := [EvCall cl1 "authenticate" auth] in
  NewConnector url username apiKey db w =
    match d1.1 with
    | Some e =>
        (Returns (None, Some (Errorf_w "failed to connect to common endpoint: " e)),
         World (<[c := obj 0 None None]> (heap w)) (S tr) (trace w ++ t1) d1.2)
    | None =>
        match d2.1 with
        | Some e =>
            (Returns (None, Some (Errorf_w "failed to connect to models endpoint: " e)),
             World (<[c := obj 0 (Some cl1) None]> (heap w)) (S tr)
                   (trace w ++ t1 ++ t2) d2.2)
        | None =>
            match a.1.2 with
            | Some e =>
                (Returns (None, Some (Errorf_w "authentication failed: " e)),
                 World (<[c := obj 0 (Some cl1) (Some cl2)]> (heap w)) (S tr)
                       (trace w ++ t1 ++ t2 ++ t3) a.2)
            | None =>
                if Z.eqb a.1.1 0 then
                  (Returns (None, Some (errorString
                              "authentication failed: invalid credentials")),
                   World (<[c := obj 0 (Some cl1) (Some cl2)]> (heap w)) (S tr)
                         (trace w ++ t1 ++ t2 ++ t3) a.2)
                else
                  (Returns (Some c, None),
                   World (<[c := obj a.1.1 (Some cl1) (Some cl2)]> (heap w)) (S tr)
                         (trace w ++ t1 ++ t2 ++ t3 ++
                          [EvAssign c f_UID;
                           EvLog ("Successfully initialized Odoo connector with UID: "
                                  +:+ pretty a.1.1)]) a.2)
            end
        end
    end.
Proof.
  intros c tr cl1 cl2 auth d1 d2 a obj t1 t2 t3. subst d1 d2 a.
  unfold NewConnector.
  rewrite bind_run, new_Connector_run. fold c.
  rewrite bind_run, new_Transport_run. fold tr.
  rewrite bind_run, xmlrpc_NewClient_run. cbn [outside heap trace transports].
  destruct (platform_NewClient (url +:+ "/xmlrpc/2/common") tr (outside w))
    as [[e1|] x1]; cbn [fst snd].
  { rewrite bind_run.
    rewrite (assign_run _ c f_common _ (obj 0 None None))
      by apply lookup_insert_eq.
    cbn [outside heap trace transports]. unfold mret, M_ret.
    rewrite insert_insert_eq, <- app_assoc. reflexivity. }
  rewrite bind_run.
  rewrite (assign_run _ c f_common _ (obj 0 None None)) by apply lookup_insert_eq.
  cbn [outside heap trace transports]. rewrite insert_insert_eq, <- app_assoc.
  rewrite bind_run, xmlrpc_NewClient_run. cbn [outside heap trace transports].
  destruct (platform_NewClient (url +:+ "/xmlrpc/2/object") tr x1)
    as [[e2|] x2]; cbn [fst snd].
  { rewrite bind_run.
    rewrite (assign_run _ c f_models _ (obj 0 (Some cl1) None))
      by apply lookup_insert_eq.
    cbn [outside heap trace transports]. unfold mret, M_ret.
    rewrite insert_insert_eq, <- !app_assoc. reflexivity. }
  rewrite bind_run.
  rewrite (assign_run _ c f_models _ (obj 0 (Some cl1) None))
    by apply lookup_insert_eq.
  cbn [outside heap trace transports]. rewrite insert_insert_eq, <- !app_assoc.
  rewrite bind_run.
  rewrite (load_run _ c (obj 0 (Some cl1) (Some cl2))) by apply lookup_insert_eq.
  rewrite bind_run.
  change (Connector.common (obj 0 (Some cl1) (Some cl2))) with (Some cl1).
  rewrite Client_Call_run. cbn [outside heap trace transports].
  fold auth. change (zero DInt) with 0.
  destruct (platform_Call DInt cl1 "authenticate" auth 0 x2)
    as [[uid [e3|]] x3]; cbn [fst snd].
  { unfold mret, M_ret. rewrite <- !app_assoc. reflexivity. }
  destruct (Z.eqb uid 0).
  { unfold mret, M_ret. rewrite <- !app_assoc. reflexivity. }
  rewrite bind_run.
  rewrite (assign_run _ c f_UID _ (obj 0 (Some cl1) (Some cl2)))
    by apply lookup_insert_eq.
  cbn [outside heap trace transports]. rewrite insert_insert_eq.
  rewrite bind_run, log_Printf_run. cbn [outside heap trace transports].
  unfold mret, M_ret. rewrite <- !app_assoc. reflexivity.
Qed.

(** ** Configuration *)

Lemma LoadConfig_run (w : world) path :
  let file := platform_ReadFile path (outside w) in
  let parsed := platform_Unmarshal file.1.1 Config.zero in
  let config := parsed.1 in
  LoadConfig path w =
    (Returns
       (match file.1.2 with
        | Some e => (None, Some (Errorf_w "failed to read config file: " e))
        | None =>
            match parsed.2 with
            | Some e => (None, Some (Errorf_w "failed to parse config file: " e))
            | None =>
                if String.eqb (Config.URL config) EmptyString then
                  (None, Some (errorString "URL is required in config"))
                else if String.eqb (Config.Username config) EmptyString then
                  (None, Some (errorString "username is required in config"))
                else if String.eqb (Config.APIKey config) EmptyString then
                  (None, Some (errorString "API key is required in config"))
                else if String.eqb (Config.DB config) EmptyString then
                  (None, Some (errorString "database name is required in config"))
                else (Some config, None)
            end
        end),
     set_outside file.2 (set_trace (trace w ++ [EvReadFile path])%list w)).
Proof.
  unfold LoadConfig. run.
  destruct (platform_ReadFile path (outside w)) as [[data [e|]] x]; simpl;
    [reflexivity|].
  destruct (platform_Unmarshal data Config.zero) as [config [e|]]; simpl;
    [reflexivity|].
  repeat (match goal with |- context [String.eqb ?a ?b] =>
            destruct (String.eqb a b) end; [reflexivity|]).
  reflexivity.
Qed.

(** ** Reading traces and frames *)

Lemma remote_calls_app (t1 t2 : list event) :
  remote_calls (t1 ++ t2) = (remote_calls t1 ++ remote_calls t2)%list.
Proof. apply omap_app. Qed.

Lemma endpoints_opened_app (t1 t2 : list event) :
  endpoints_opened (t1 ++ t2) = (endpoints_opened t1 ++ endpoints_opened t2)%list.
Proof. apply omap_app. Qed.

Lemma UID_assignments_app (t1 t2 : list event) :
  UID_assignments (t1 ++ t2) = (UID_assignments t1 ++ UID_assignments t2)%list.
Proof. apply omap_app. Qed.

Lemma framed_refl (w : world) : framed w w.
Proof. unfold framed. auto. Qed.

Lemma framed_after_call (w : world) cl method args x :
  framed w (after_call w cl method args x).
Proof.
  unfold framed, after_call. simpl. repeat split.
  - rewrite UID_assignments_app. simpl. apply app_nil_r.
  - intros c f Hin. apply elem_of_app in Hin as [Hin|Hin]; [exact Hin|].
    apply list_elem_of_singleton in Hin. discriminate Hin.
Qed.

(** * The contract *)

(** C1. On a usable connector, [SearchReadRecords] issues exactly one remote
    call, named "execute_kw"; its arguments are (DB, UID, APIKey, model,
    "search_read", [Domain]) followed by the map {fields, offset, limit,
    order} taken from the options (a nil [Domain] travels as the empty
    sequence); and when that call succeeds the records the call decoded are
    returned as they are. *)
Theorem SearchReadRecords_one_call (w : world) c self cl model opts :
  heap w !! c = Some self →
  Connector.models self = Some cl →
  let args :=
    [VString (Connector.DB self); VInt (Connector.UID self);
     VString (Connector.APIKey self);
     VString model; VString "search_read";
     VSlice (Some [VSlice (Some (elems (SearchReadOptions.Domain opts)))]);
     VMap (Some {[ "fields" := VStrings (SearchReadOptions.Fields opts);
                   "offset" := VInt (SearchReadOptions.Offset opts);
                   "limit" := VInt (SearchReadOptions.Limit opts);
                   "order" := VString (SearchReadOptions.Order opts) ]})] in
  let answer := platform_Call DRecords cl "execute_kw" args None (outside w) in
  let out := SearchReadRecords c model opts w in
  trace out.2 = (trace w ++ [EvCall cl "execute_kw" args])%list ∧
  remote_calls (trace out.2) =
    (remote_calls (trace w) ++ [(cl, "execute_kw", args)])%list ∧
  (answer.1.2 = None → out.1 = Returns (answer.1.1, None)).
Proof.
  intros Hc Hm args answer out. subst out.
  rewrite (SearchReadRecords_run w c self cl model opts Hc Hm).
  change (credentials self ++ _)%list with args. fold answer. simpl.
  split; [reflexivity|]. split.
  - rewrite remote_calls_app. reflexivity.
  - intros ->. reflexivity.
Qed.

(** C3. On a usable connector, with a nil [Domain], [SearchReadRecords]
    issues exactly one remote call, and it is the very call (same method
    "execute_kw", same arguments element for element) it issues for the same
    options with [Domain] set to the explicit empty sequence: in both, the
    filter travels as the empty, non-nil sequence.  The two runs are
    indistinguishable altogether. *)
Theorem SearchReadRecords_nil_domain (w : world) c self cl model opts :
  heap w !! c = Some self →
  Connector.models self = Some cl →
  SearchReadOptions.Domain opts = None →
  let explicit := SearchReadOptions.set_Domain (Some []) opts in
  let call :=
    EvCall cl "execute_kw"
      [VString (Connector.DB self); VInt (Connector.UID self);
       VString (Connector.APIKey self);
       VString model; VString "search_read";
       VSlice (Some [VSlice (Some [])]);
       VMap (Some {[ "fields" := VStrings (SearchReadOptions.Fields opts);
                     "offset" := VInt (SearchReadOptions.Offset opts);
                     "limit" := VInt (SearchReadOptions.Limit opts);
                     "order" := VString (SearchReadOptions.Order opts) ]})] in
  trace (SearchReadRecords c model opts w).2 = (trace w ++ [call])%list ∧
  trace (SearchReadRecords c model explicit w).2 = (trace w ++ [call])%list ∧
  remote_calls (trace (SearchReadRecords c model opts w).2) =
    remote_calls (trace (SearchReadRecords c model explicit w).2) ∧
  SearchReadRecords c model opts w = SearchReadRecords c model explicit w.
Proof.
  intros Hc Hm Hnil explicit call.
  assert (SearchReadRecords c model opts w = SearchReadRecords c model explicit w)
    as Heq.
  { unfold SearchReadRecords, explicit. rewrite Hnil. reflexivity. }
  assert (trace (SearchReadRecords c model explicit w).2 = (trace w ++ [call])%list)
    as Hsent.
  { rewrite (SearchReadRecords_run w c self cl model explicit Hc Hm).
    reflexivity. }
  split; [by rewrite Heq|]. split; [exact Hsent|].
  split; [by rewrite Heq | exact Heq].
Qed.

(** C6. On a usable connector, [ExecuteMethod] with nil kwargs sends exactly
    the six arguments (DB, UID, APIKey, model, method, args); with any
    non-nil kwargs, the empty map included, it sends seven, the kwargs map
    last.  The nil-kwargs list is one element shorter. *)
Theorem ExecuteMethod_kwargs_arity (w : world) c self cl model method args :
  heap w !! c = Some self →
  Connector.models self = Some cl →
  let six :=
    [VString (Connector.DB self); VInt (Connector.UID self);
     VString (Connector.APIKey self);
     VString model; VString method; VSlice args] in
  trace (ExecuteMethod c model method args None w).2 =
    (trace w ++ [EvCall cl "execute_kw" six])%list ∧
  length six = 6%nat ∧
  ∀ kwargs : gmap string value,
    let seven := (six ++ [VMap (Some kwargs)])%list in
    trace (ExecuteMethod c model method args (Some kwargs) w).2 =
      (trace w ++ [EvCall cl "execute_kw" seven])%list ∧
    length seven = 7%nat ∧ length seven = S (length six).
Proof.
  intros Hc Hm six. split; [|split; [reflexivity|]].
  - rewrite (ExecuteMethod_run w c self cl model method args None Hc Hm).
    reflexivity.
  - intros kwargs seven.
    rewrite (ExecuteMethod_run w c self cl model method args (Some kwargs) Hc Hm).
    repeat split.
Qed.

(** C4. On a usable connector, [UpdateRecord] returns an error exactly when
    the remote "write" call fails or succeeds with result false; the
    transport failure wraps the cause, the false result is the separate
    "no record updated" error with nothing wrapped; nil is returned only
    for a successful call with result true.  [DeleteRecord] does the same
    for "unlink", with "no record deleted". *)
Theorem UpdateRecord_DeleteRecord_dual_failure (w : world) c self cl model id values :
  heap w !! c = Some self →
  Connector.models self = Some cl →
  let head := [VString (Connector.DB self); VInt (Connector.UID self);
               VString (Connector.APIKey self); VString model] in
  let write := platform_Call DBool cl "execute_kw"
    (head ++ [VString "write"; VSlice (Some [VInt64s (Some [id]); VMap values])])
    false (outside w) in
  let unlink := platform_Call DBool cl "execute_kw"
    (head ++ [VString "unlink"; VSlice (Some [VInt64s (Some [id])])])
    false (outside w) in
  dual_failure write.1 (UpdateRecord c model id values w).1
    ("update failed for model " +:+ model +:+ " with id " +:+ pretty id
     +:+ ": no record updated") ∧
  dual_failure unlink.1 (DeleteRecord c model id w).1
    ("delete failed for model " +:+ model +:+ " with id " +:+ pretty id
     +:+ ": no record deleted").
Proof.
  intros Hc Hm head write unlink. split.
  - rewrite (UpdateRecord_run w c self cl model id values Hc Hm).
    change (credentials self ++ _)%list with
      (head ++ [VString "write"; VSlice (Some [VInt64s (Some [id]); VMap values])])%list.
    fold write. simpl.
    destruct write as [[[|] [e|]] x]; simpl; eauto.
    all: eexists; split; [reflexivity|]; split; [reflexivity | discriminate].
  - rewrite (DeleteRecord_run w c self cl model id Hc Hm).
    change (credentials self ++ _)%list with
      (head ++ [VString "unlink"; VSlice (Some [VInt64s (Some [id])])])%list.
    fold unlink. simpl.
    destruct unlink as [[[|] [e|]] x]; simpl; eauto.
    all: eexists; split; [reflexivity|]; split; [reflexivity | discriminate].
Qed.

(** C10. Whenever [CreateRecord], [SearchReadRecords] or [ExecuteMethod]
    returns a non-nil error, the value returned with it is the zero value of
    its type: id 0, the nil record sequence, the nil result. *)
Theorem error_comes_with_zero_value (w : world) c model (e : error) :
  (∀ values id,
     (CreateRecord c model values w).1 = Returns (id, Some e) → id = 0) ∧
  (∀ opts records,
     (SearchReadRecords c model opts w).1 = Returns (records, Some e) →
     records = None) ∧
  (∀ method args kwargs result,
     (ExecuteMethod c model method args kwargs w).1 = Returns (result, Some e) →
     result = VNil).
Proof.
  destruct (usable_dec w c) as [Hu | (self & cl & Hc & Hm)].
  - destruct (record_ops_panic w c Hu) as (Hs & Hcr & _ & _ & Hx).
    repeat split; intros *; rewrite ?Hs, ?Hcr, ?Hx; discriminate.
  - repeat split; intros *.
    + rewrite (CreateRecord_run w c self cl model values Hc Hm).
      cbn [fst snd].
      destruct (platform_Call _ _ _ _ _ _) as [[res [e'|]] x]; cbn [fst snd];
        congruence.
    + rewrite (SearchReadRecords_run w c self cl model opts Hc Hm).
      cbn [fst snd].
      destruct (platform_Call _ _ _ _ _ _) as [[res [e'|]] x]; cbn [fst snd];
        congruence.
    + rewrite (ExecuteMethod_run w c self cl model method args kwargs Hc Hm).
      cbn [fst snd].
      destruct (platform_Call _ _ _ _ _ _) as [[res [e'|]] x]; cbn [fst snd];
        congruence.
Qed.

(** The five record operations leave the heap, the transports and the
    assignment history as they found them. *)
Lemma record_ops_framed (w : world) c :
  (∀ model opts, framed w (SearchReadRecords c model opts w).2) ∧
  (∀ model values, framed w (CreateRecord c model values w).2) ∧
  (∀ model id values, framed w (UpdateRecord c model id values w).2) ∧
  (∀ model id, framed w (DeleteRecord c model id w).2) ∧
  (∀ model method args kwargs,
     framed w (ExecuteMethod c model method args kwargs w).2).
Proof.
  destruct (usable_dec w c) as [Hu | (self & cl & Hc & Hm)].
  - destruct (record_ops_panic w c Hu) as (Hs & Hcr & Hup & Hdel & Hx).
    repeat split; intros *; rewrite ?Hs, ?Hcr, ?Hup, ?Hdel, ?Hx; apply framed_refl.
  - split; [|split; [|split; [|split]]]; intros *.
    + rewrite (SearchReadRecords_run w c self cl model opts Hc Hm).
      apply framed_after_call.
    + rewrite (CreateRecord_run w c self cl model values Hc Hm).
      apply framed_after_call.
    + rewrite (UpdateRecord_run w c self cl model id values Hc Hm).
      apply framed_after_call.
    + rewrite (DeleteRecord_run w c self cl model id Hc Hm).
      apply framed_after_call.
    + rewrite (ExecuteMethod_run w c self cl model method args kwargs Hc Hm).
      apply framed_after_call.
Qed.

(** A successful construction returns a fresh object, assigns its [UID]
    once, and touches no other object. *)
Lemma NewConnector_assigns_UID_once (w : world) url username apiKey db p :
  let out := NewConnector url username apiKey db w in
  out.1 = Returns (Some p, None) →
  heap w !! p = None ∧
  UID_assignments (trace out.2) = (UID_assignments (trace w) ++ [p])%list ∧
  ∀ l, l ≠ p → heap out.2 !! l = heap w !! l.
Proof.
  intros out. subst out. rewrite NewConnector_run.
  repeat (match goal with |- context [match ?x with _ => _ end] =>
            destruct x end; simpl; try discriminate).
  intros [= <-]. split; [|split].
  - apply not_elem_of_dom, is_fresh.
  - rewrite !UID_assignments_app. simpl. reflexivity.
  - intros l Hl. by rewrite lookup_insert_ne.
Qed.

(** C9. Every record operation, whether it returns a result, returns an
    error or panics, leaves every [Connector] in the heap exactly as it was
    and assigns no field; a successful [NewConnector] assigns the [UID] of
    the object it returns exactly once. *)
Theorem record_operations_frame (w : world) c model :
  (∀ opts, framed w (SearchReadRecords c model opts w).2) ∧
  (∀ values, framed w (CreateRecord c model values w).2) ∧
  (∀ id values, framed w (UpdateRecord c model id values w).2) ∧
  (∀ id, framed w (DeleteRecord c model id w).2) ∧
  (∀ method args kwargs,
     framed w (ExecuteMethod c model method args kwargs w).2) ∧
  (∀ url username apiKey db,
     let out := NewConnector url username apiKey db w in
     out.1 = Returns (Some c, None) →
     heap w !! c = None ∧
     UID_assignments (trace out.2) = (UID_assignments (trace w) ++ [c])%list).
Proof.
  destruct (record_ops_framed w c) as (H1 & H2 & H3 & H4 & H5).
  split; [auto|]. split; [auto|]. split; [auto|]. split; [auto|].
  split; [auto|].
  intros url username apiKey db out Hout.
  destruct (NewConnector_assigns_UID_once w url username apiKey db c Hout)
    as (Hfresh & Honce & _).
  split; assumption.
Qed.

(** C2, as the code has it.  After every successful [NewConnector] the
    stored [UID] is the session identifier the "authenticate" call decoded,
    and it is not zero; when both endpoints are established and the call
    succeeds with 0, construction fails with the "invalid credentials"
    authentication error and returns no [Connector]. *)
Theorem NewConnector_session_nonzero (w : world) url username apiKey db :
  let tr := transports w in
  let d1 := platform_NewClient (url +:+ "/xmlrpc/2/common") tr (outside w) in
  let d2 := platform_NewClient (url +:+ "/xmlrpc/2/object") tr d1.2 in
  let a := platform_Call DInt (mkClient (url +:+ "/xmlrpc/2/common") tr)
             "authenticate"
             [VString db; VString username; VString apiKey; VStringMap (Some ∅)]
             0 d2.2 in
  let out := NewConnector url username apiKey db w in
  (∀ c, out.1 = Returns (Some c, None) →
     ∃ self, heap out.2 !! c = Some self ∧
             Connector.UID self = a.1.1 ∧ Connector.UID self ≠ 0) ∧
  (d1.1 = None → d2.1 = None → a.1 = (0, None) →
     out.1 = Returns (None, Some (errorString
                        "authentication failed: invalid credentials"))).
Proof.
  intros tr d1 d2 a out. subst out. rewrite NewConnector_run.
  fold tr d1 d2 a. split.
  - intros c.
    destruct d1.1; [discriminate|]. destruct d2.1; [discriminate|].
    destruct a.1.2; [discriminate|].
    destruct (Z.eqb_spec a.1.1 0) as [|Hne]; [discriminate|].
    simpl. intros [= <-]. eexists. rewrite lookup_insert_eq.
    split; [reflexivity|]. simpl. auto.
  - intros -> -> Ha. rewrite Ha. reflexivity.
Qed.

(** C8. [NewConnector] opens the endpoint "<url>/xmlrpc/2/common", then the
    endpoint "<url>/xmlrpc/2/object", both on the one transport it has just
    allocated, and no other; if the first cannot be established it fails
    with the "common endpoint" connection error, if the second cannot, with
    the "models endpoint" connection error; a [Connector] it returns holds
    the handles of exactly these two endpoints. *)
Theorem NewConnector_endpoints (w : world) url username apiKey db :
  let tr := transports w in
  let common_url := url +:+ "/xmlrpc/2/common" in
  let object_url := url +:+ "/xmlrpc/2/object" in
  let d1 := platform_NewClient common_url tr (outside w) in
  let d2 := platform_NewClient object_url tr d1.2 in
  let out := NewConnector url username apiKey db w in
  transports out.2 = S tr ∧
  (∀ e, d1.1 = Some e →
     out.1 = Returns (None, Some (Errorf_w "failed to connect to common endpoint: " e)) ∧
     endpoints_opened (trace out.2) =
       (endpoints_opened (trace w) ++ [(common_url, tr)])%list) ∧
  (d1.1 = None →
     endpoints_opened (trace out.2) =
       (endpoints_opened (trace w) ++ [(common_url, tr); (object_url, tr)])%list ∧
     (∀ e, d2.1 = Some e →
        out.1 = Returns (None, Some (Errorf_w "failed to connect to models endpoint: " e))) ∧
     (∀ c, out.1 = Returns (Some c, None) →
        ∃ self, heap out.2 !! c = Some self ∧
                Connector.common self = Some (mkClient common_url tr) ∧
                Connector.models self = Some (mkClient object_url tr))).
Proof.
  intros tr common_url object_url d1 d2 out. subst out.
  rewrite NewConnector_run. fold tr common_url object_url d1 d2.
  set (a := platform_Call DInt _ _ _ _ _).
  split; [|split].
  - destruct d1.1; [reflexivity|]. destruct d2.1; [reflexivity|].
    destruct a.1.2; [reflexivity|]. destruct (Z.eqb a.1.1 0); reflexivity.
  - intros e ->. simpl. split; [reflexivity|].
    rewrite endpoints_opened_app. reflexivity.
  - intros ->. split; [|split].
    + destruct d2.1; [|destruct a.1.2; [|destruct (Z.eqb a.1.1 0)]]; simpl;
        rewrite !endpoints_opened_app; simpl; rewrite ?app_nil_r; reflexivity.
    + intros e ->. reflexivity.
    + intros c. destruct d2.1; [discriminate|].
      destruct a.1.2; [discriminate|]. destruct (Z.eqb a.1.1 0); [discriminate|].
      simpl. intros [= <-]. eexists. rewrite lookup_insert_eq. auto.
Qed.

(** [LoadConfig] in the words of the contract: a file that cannot be read or
    parsed is an error; otherwise the first empty field, in check order, is
    reported, and a config without empty field is returned. *)
Lemma LoadConfig_first_empty (w : world) path :
  let file := platform_ReadFile path (outside w) in
  let parsed := platform_Unmarshal file.1.1 Config.zero in
  file.1.2 = None → parsed.2 = None →
  (LoadConfig path w).1 =
    Returns (match first_empty parsed.1 with
             | Some f => (None, Some (required f))
             | None => (Some parsed.1, None)
             end).
Proof.
  intros file parsed Hread Hparse. rewrite LoadConfig_run.
  fold file parsed. rewrite Hread, Hparse. simpl.
  destruct parsed.1 as [u n k d]. unfold first_empty. simpl.
  repeat (case_bool_decide as H;
            [rewrite H; reflexivity
            |apply String.eqb_neq in H; rewrite H; clear H]).
  reflexivity.
Qed.

(** C5. For every file that can be read and parsed: if all four fields are
    non-empty, [LoadConfig] returns the parsed config, equal to the file's
    contents; if some field is empty, [LoadConfig] fails with the validation
    error naming the first empty field in the order url, username, api_key,
    db, and checks no further. *)
Theorem LoadConfig_validates (w : world) path :
  let file := platform_ReadFile path (outside w) in
  let parsed := platform_Unmarshal file.1.1 Config.zero in
  let config := parsed.1 in
  file.1.2 = None → parsed.2 = None →
  ((∀ f, field_value config f ≠ EmptyString) →
     (LoadConfig path w).1 = Returns (Some config, None)) ∧
  (∀ before f after,
     check_order = (before ++ f :: after)%list →
     (∀ g, g ∈ before → field_value config g ≠ EmptyString) →
     field_value config f = EmptyString →
     (LoadConfig path w).1 = Returns (None, Some (required f))).
Proof.
  intros file parsed config Hread Hparse.
  pose proof (LoadConfig_first_empty w path Hread Hparse) as Hrun.
  fold file parsed config in Hrun. split.
  - intros Hfull. rewrite Hrun. unfold first_empty, check_order.
    cbn [find].
    rewrite (bool_decide_eq_false_2 _ (Hfull url_field)).
    rewrite (bool_decide_eq_false_2 _ (Hfull username_field)).
    rewrite (bool_decide_eq_false_2 _ (Hfull api_key_field)).
    rewrite (bool_decide_eq_false_2 _ (Hfull db_field)).
    reflexivity.
  - intros before f after Horder Hbefore Hempty. rewrite Hrun.
    assert (first_empty config = Some f) as ->; [|reflexivity].
    unfold first_empty. rewrite Horder. clear Horder.
    induction before as [|g before IH]; simpl.
    + by rewrite bool_decide_eq_true_2.
    + rewrite bool_decide_eq_false_2 by (apply Hbefore; left).
      apply IH. intros g' Hg'. apply Hbefore. by right.
Qed.

(** C7. [NewConnectorFromConfig] is [LoadConfig] followed by [NewConnector]
    on the loaded fields: [LoadConfig] always returns either an error or a
    config; its error is handed back unchanged, with no [Connector]; and on
    a config the outcome is that of [NewConnector] on url, username,
    api_key and db, run in the world [LoadConfig] left. *)
Theorem NewConnectorFromConfig_composes (w : world) configPath :
  match LoadConfig configPath w with
  | (Returns (_, Some err), w') =>
      NewConnectorFromConfig configPath w = (Returns (None, Some err), w')
  | (Returns (Some config, None), w') =>
      NewConnectorFromConfig configPath w =
        NewConnector (Config.URL config) (Config.Username config)
                     (Config.APIKey config) (Config.DB config) w'
  | _ => False
  end.
Proof.
  unfold NewConnectorFromConfig. rewrite bind_run, LoadConfig_run.
  destruct (platform_ReadFile _ _) as [[data [e|]] x]; cbn [fst snd];
    [reflexivity|].
  destruct (platform_Unmarshal _ _) as [config [e|]]; cbn [fst snd];
    [reflexivity|].
  repeat (match goal with |- context [String.eqb ?a ?b] =>
            destruct (String.eqb a b) end; [reflexivity|]).
  reflexivity.
Qed.

End Properties.

(** * The contract on the stub platform *)

(** The end-to-end scenario: a server that answers "authenticate" with 7
    gives a connector with session 7, and a search on it sends the empty
    filter, the four parameters, and hands back the server's records. *)
Example end_to_end :
  let P := Scenario.good in
  let built := NewConnector "http://x" "u" "k" "d" (Stub.boot P 0%nat) in
  built.1 = Returns (Some 0%nat, None) ∧
  heap built.2 !! 0%nat = Some Stub.connector ∧
  let found := SearchReadRecords 0%nat "crm.lead" Scenario.opts built.2 in
  found.1 = Returns (Some [Some Stub.lead], None) ∧
  remote_calls (trace found.2) =
    [(mkClient "http://x/xmlrpc/2/common" 0%nat, "authenticate",
      [VString "d"; VString "u"; VString "k"; VStringMap (Some ∅)]);
     (Scenario.object, "execute_kw",
      [VString "d"; VInt 7; VString "k"; VString "crm.lead"; VString "search_read";
       VSlice (Some [VSlice (Some [])]);
       VMap (Some {[ "fields" := VStrings (Some ["id"; "name"]);
                     "offset" := VInt 0; "limit" := VInt 10;
                     "order" := VString "create_date desc" ]})])].
Proof.
  intros P built. split; [evaluate|]. split; [evaluate|].
  intros found. split; evaluate.
Qed.

Lemma SearchReadRecords_one_call_witness :
  let w := Stub.ready Scenario.good 0%nat in
  heap w !! 0%nat = Some Stub.connector ∧
  Connector.models Stub.connector = Some Scenario.object ∧
  (SearchReadRecords 0%nat "crm.lead" Scenario.opts w).1 =
    Returns (Some [Some Stub.lead], None).
Proof.
  intros w.
  assert (heap w !! 0%nat = Some Stub.connector) as Hc by evaluate.
  assert (Connector.models Stub.connector = Some Scenario.object) as Hm by evaluate.
  split; [exact Hc|]. split; [exact Hm|].
  destruct (SearchReadRecords_one_call (P := Scenario.good) w 0%nat
              Stub.connector Scenario.object "crm.lead" Scenario.opts Hc Hm)
    as (_ & _ & H).
  specialize (H ltac:(evaluate)). conclude H.
Defined.

Lemma SearchReadRecords_nil_domain_witness :
  let w := Stub.ready Scenario.good 0%nat in
  heap w !! 0%nat = Some Stub.connector ∧
  Connector.models Stub.connector = Some Scenario.object ∧
  SearchReadOptions.Domain Scenario.opts = None ∧
  trace (SearchReadRecords 0%nat "crm.lead" Scenario.opts w).2 =
    [EvCall Scenario.object "execute_kw"
       [VString "d"; VInt 7; VString "k"; VString "crm.lead"; VString "search_read";
        VSlice (Some [VSlice (Some [])]);
        VMap (Some {[ "fields" := VStrings (Some ["id"; "name"]);
                      "offset" := VInt 0; "limit" := VInt 10;
                      "order" := VString "create_date desc" ]})]] ∧
  SearchReadRecords 0%nat "crm.lead" Scenario.opts w =
    SearchReadRecords 0%nat "crm.lead"
      (SearchReadOptions.set_Domain (Some []) Scenario.opts) w.
Proof.
  intros w.
  assert (heap w !! 0%nat = Some Stub.connector) as Hc by evaluate.
  assert (Connector.models Stub.connector = Some Scenario.object) as Hm by evaluate.
  assert (SearchReadOptions.Domain Scenario.opts = None) as Hnil by evaluate.
  split; [exact Hc|]. split; [exact Hm|]. split; [exact Hnil|].
  destruct (SearchReadRecords_nil_domain (P := Scenario.good) w 0%nat
              Stub.connector Scenario.object "crm.lead" Scenario.opts Hc Hm Hnil)
    as (Hsent & _ & _ & Heq).
  split; [conclude Hsent | exact Heq].
Defined.

Lemma UpdateRecord_DeleteRecord_dual_failure_witness :
  let w := Stub.ready Scenario.refusing 0%nat in
  heap w !! 0%nat = Some Stub.connector ∧
  Connector.models Stub.connector = Some Scenario.object ∧
  (UpdateRecord 0%nat "crm.lead" 5 (Some ∅) w).1 =
    Returns (Some (errorString
      "update failed for model crm.lead with id 5: no record updated")) ∧
  (DeleteRecord 0%nat "crm.lead" 5 w).1 =
    Returns (Some (errorString
      "delete failed for model crm.lead with id 5: no record deleted")).
Proof.
  intros w.
  assert (heap w !! 0%nat = Some Stub.connector) as Hc by evaluate.
  assert (Connector.models Stub.connector = Some Scenario.object) as Hm by evaluate.
  split; [exact Hc|]. split; [exact Hm|].
  destruct (UpdateRecord_DeleteRecord_dual_failure (P := Scenario.refusing) w 0%nat
              Stub.connector Scenario.object "crm.lead" 5 (Some ∅) Hc Hm)
    as (Hup & Hdel).
  split.
  - vm_compute in Hup. destruct Hup as [Hup _]. vm_compute. exact Hup.
  - vm_compute in Hdel. destruct Hdel as [Hdel _]. vm_compute. exact Hdel.
Defined.

Lemma ExecuteMethod_kwargs_arity_witness :
  let w := Stub.ready Scenario.good 0%nat in
  heap w !! 0%nat = Some Stub.connector ∧
  Connector.models Stub.connector = Some Scenario.object ∧
  trace (ExecuteMethod 0%nat "crm.lead" "name_get" (Some [VInt64s (Some [5])]) None w).2 =
    [EvCall Scenario.object "execute_kw"
       [VString "d"; VInt 7; VString "k"; VString "crm.lead"; VString "name_get";
        VSlice (Some [VInt64s (Some [5])])]] ∧
  trace (ExecuteMethod 0%nat "crm.lead" "name_get" (Some [VInt64s (Some [5])])
           (Some ∅) w).2 =
    [EvCall Scenario.object "execute_kw"
       [VString "d"; VInt 7; VString "k"; VString "crm.lead"; VString "name_get";
        VSlice (Some [VInt64s (Some [5])]); VMap (Some ∅)]].
Proof.
  intros w.
  assert (heap w !! 0%nat = Some Stub.connector) as Hc by evaluate.
  assert (Connector.models Stub.connector = Some Scenario.object) as Hm by evaluate.
  split; [exact Hc|]. split; [exact Hm|].
  destruct (ExecuteMethod_kwargs_arity (P := Scenario.good) w 0%nat
              Stub.connector Scenario.object "crm.lead" "name_get"
              (Some [VInt64s (Some [5])]) Hc Hm)
    as (Hsix & _ & Hseven).
  split; [conclude Hsix|].
  destruct (Hseven ∅) as (H & _). conclude H.
Defined.

Lemma error_comes_with_zero_value_witness :
  let w := Stub.ready Scenario.down 0%nat in
  let e := Errorf_w "create failed for model crm.lead: " Stub.timeout in
  let out := CreateRecord 0%nat "crm.lead" (Some ∅) w in
  out.1 = Returns (0, Some e) ∧ (∀ id, out.1 = Returns (id, Some e) → id = 0).
Proof.
  intros w e out.
  assert (out.1 = Returns (0, Some e)) as Hout by evaluate.
  split; [exact Hout|].
  destruct (error_comes_with_zero_value (P := Scenario.down) w 0%nat
              "crm.lead" e) as (Hcreate & _ & _).
  exact (Hcreate (Some ∅)).
Defined.

Lemma record_operations_frame_witness :
  let P := Scenario.good in
  let out := NewConnector "http://x" "u" "k" "d" (Stub.boot P 0%nat) in
  out.1 = Returns (Some 0%nat, None) ∧
  UID_assignments (trace out.2) = [0%nat] ∧
  heap (DeleteRecord 0%nat "crm.lead" 5 out.2).2 = heap out.2.
Proof.
  intros P out.
  assert (out.1 = Returns (Some 0%nat, None)) as Hout by evaluate.
  split; [exact Hout|].
  destruct (record_operations_frame (P := Scenario.good) (Stub.boot P 0%nat)
              0%nat "crm.lead") as (_ & _ & _ & _ & _ & Hnew).
  destruct (Hnew "http://x" "u" "k" "d" Hout) as (_ & Honce).
  split; [conclude Honce|].
  destruct (record_operations_frame (P := Scenario.good) out.2 0%nat "crm.lead")
    as (_ & _ & _ & Hdel & _).
  exact (proj1 (Hdel 5)).
Defined.

Lemma NewConnector_session_nonzero_witness :
  let P := Scenario.rejecting in
  let out := NewConnector "http://x" "u" "k" "d" (Stub.boot P 0%nat) in
  out.1 = Returns (None, Some (errorString "authentication failed: invalid credentials")) ∧
  let good := NewConnector (P := Scenario.good) "http://x" "u" "k" "d"
                (Stub.boot Scenario.good 0%nat) in
  good.1 = Returns (Some 0%nat, None) ∧
  ∃ self, heap good.2 !! 0%nat = Some self ∧ Connector.UID self ≠ 0.
Proof.
  intros P out. split.
  - destruct (NewConnector_session_nonzero (P := Scenario.rejecting)
                (Stub.boot P 0%nat) "http://x" "u" "k" "d") as (_ & H).
    specialize (H ltac:(evaluate) ltac:(evaluate) ltac:(evaluate)). conclude H.
  - intros good.
    assert (good.1 = Returns (Some 0%nat, None)) as Hgood by evaluate.
    split; [exact Hgood|].
    destruct (NewConnector_session_nonzero (P := Scenario.good)
                (Stub.boot Scenario.good 0%nat) "http://x" "u" "k" "d") as (H & _).
    destruct (H 0%nat Hgood) as (self & Hself & _ & Hne).
    exists self. split; [exact Hself | exact Hne].
Defined.

(** C2 fails as stated: a server that answers "authenticate" with -1 gets a
    [Connector] whose session identifier is negative. *)
Lemma NewConnector_negative_session :
  let P := Scenario.negative in
  let out := NewConnector "http://x" "u" "k" "d" (Stub.boot P 0%nat) in
  out.1 = Returns (Some 0%nat, None) ∧
  ∃ self, heap out.2 !! 0%nat = Some self ∧
          Connector.UID self = -1 ∧ ¬ (0 < Connector.UID self).
Proof.
  intros P out. split; [evaluate|].
  exists (Connector.mk "http://x" "u" "k" "d" (-1)
            (Some (mkClient "http://x/xmlrpc/2/common" 0%nat))
            (Some (mkClient "http://x/xmlrpc/2/object" 0%nat))).
  split; [evaluate|]. split; [reflexivity|]. simpl. lia.
Qed.

Lemma NewConnector_endpoints_witness :
  let P := Scenario.good in
  let bad := NewConnector "x" "u" "k" "d" (Stub.boot P 0%nat) in
  let ok := NewConnector "http://x" "u" "k" "d" (Stub.boot P 0%nat) in
  bad.1 = Returns (None, Some (Errorf_w "failed to connect to common endpoint: "
                                 (Foreign "parse: missing protocol scheme"))) ∧
  endpoints_opened (trace ok.2) =
    [("http://x/xmlrpc/2/common", 0%nat); ("http://x/xmlrpc/2/object", 0%nat)].
Proof.
  intros P bad ok. split.
  - destruct (NewConnector_endpoints (P := Scenario.good) (Stub.boot P 0%nat)
                "x" "u" "k" "d") as (_ & H & _).
    destruct (H (Foreign "parse: missing protocol scheme") ltac:(evaluate))
      as (Hbad & _).
    conclude Hbad.
  - destruct (NewConnector_endpoints (P := Scenario.good) (Stub.boot P 0%nat)
                "http://x" "u" "k" "d") as (_ & _ & H).
    destruct (H ltac:(evaluate)) as (Hok & _). conclude Hok.
Defined.

Lemma LoadConfig_validates_witness :
  let P := Scenario.good in
  (LoadConfig "config.json" (Stub.boot P 0%nat)).1 =
    Returns (Some (Config.mk "http://x" "u" "k" "d"), None) ∧
  (LoadConfig "nokey.json" (Stub.boot P 0%nat)).1 =
    Returns (None, Some (errorString "API key is required in config")) ∧
  (LoadConfig "onlydb.json" (Stub.boot P 0%nat)).1 =
    Returns (None, Some (errorString "URL is required in config")).
Proof.
  intros P. split; [|split].
  - destruct (LoadConfig_validates (P := Scenario.good) (Stub.boot P 0%nat)
                "config.json" ltac:(evaluate) ltac:(evaluate)) as (H & _).
    assert (∀ f, field_value (Config.mk "http://x" "u" "k" "d") f ≠ EmptyString)
      as Hfull by (intros []; discriminate).
    specialize (H Hfull). conclude H.
  - destruct (LoadConfig_validates (P := Scenario.good) (Stub.boot P 0%nat)
                "nokey.json" ltac:(evaluate) ltac:(evaluate)) as (_ & H).
    specialize (H [url_field; username_field] api_key_field [db_field] eq_refl).
    assert (∀ g, g ∈ [url_field; username_field] →
                 field_value (Config.mk "http://x" "u" EmptyString "d") g
                 ≠ EmptyString) as Hbefore.
    { intros g Hg. apply elem_of_cons in Hg as [->|Hg]; [discriminate|].
      apply list_elem_of_singleton in Hg as ->. discriminate. }
    specialize (H Hbefore ltac:(evaluate)). conclude H.
  - destruct (LoadConfig_validates (P := Scenario.good) (Stub.boot P 0%nat)
                "onlydb.json" ltac:(evaluate) ltac:(evaluate)) as (_ & H).
    specialize (H [] url_field [username_field; api_key_field; db_field] eq_refl).
    assert (∀ g : config_field, g ∈ @nil config_field →
                 field_value (Config.mk EmptyString EmptyString EmptyString "d") g
                 ≠ EmptyString) as Hbefore.
    { intros g Hg. by apply elem_of_nil in Hg. }
    specialize (H Hbefore ltac:(evaluate)). conclude H.
Defined.

(** * Beyond the contract: the rest of connector.go and config.go *)

Section RecordOperations.
Context `{P : Platform}.

(** X1.  [CreateRecord] on a usable connector issues exactly one "execute_kw"
    call, on the data handle, with (DB, UID, APIKey, model, "create",
    [values]); when the call succeeds the decoded id is returned as it is. *)
Theorem CreateRecord_one_call (w : world) c self cl model values :
  heap w !! c = Some self →
  Connector.models self = Some cl →
  let args :=
    [VString (Connector.DB self); VInt (Connector.UID self);
     VString (Connector.APIKey self);
     VString model; VString "create"; VSlice (Some [VMap values])] in
  let answer := platform_Call DInt64 cl "execute_kw" args 0 (outside w) in
  let out := CreateRecord c model values w in
  trace out.2 = (trace w ++ [EvCall cl "execute_kw" args])%list ∧
  (answer.1.2 = None → out.1 = Returns (answer.1.1, None)).
Proof.
  intros Hc Hm args answer out. subst out.
  rewrite (CreateRecord_run w c self cl model values Hc Hm).
  change (credentials self ++ _)%list with args. fold answer.
  cbn [fst snd]. split; [reflexivity|]. intros ->. reflexivity.
Qed.

(** X2.  [UpdateRecord] sends "write" with [[id], values] and [DeleteRecord]
    sends "unlink" with [[id]]: one "execute_kw" call each, on the data
    handle, whatever the answer. *)
Theorem UpdateRecord_DeleteRecord_calls (w : world) c self cl model id values :
  heap w !! c = Some self →
  Connector.models self = Some cl →
  let head := [VString (Connector.DB self); VInt (Connector.UID self);
               VString (Connector.APIKey self); VString model] in
  trace (UpdateRecord c model id values w).2 =
    (trace w ++ [EvCall cl "execute_kw"
       (head ++ [VString "write";
                 VSlice (Some [VInt64s (Some [id]); VMap values])])])%list ∧
  trace (DeleteRecord c model id w).2 =
    (trace w ++ [EvCall cl "execute_kw"
       (head ++ [VString "unlink"; VSlice (Some [VInt64s (Some [id])])])])%list.
Proof.
  intros Hc Hm head. split.
  - rewrite (UpdateRecord_run w c self cl model id values Hc Hm). reflexivity.
  - rewrite (DeleteRecord_run w c self cl model id Hc Hm). reflexivity.
Qed.

(** X3.  When the remote call of a record operation fails with [e], the
    operation returns the zero value and an error that wraps [e]; the text
    of that error is the text of [e] behind a prefix naming the operation
    and its target: the model, and the record id or the method where there
    is one. *)
Theorem record_errors_name_their_target (w : world) c self cl model (e : error) :
  heap w !! c = Some self →
  Connector.models self = Some cl →
  let fails (d : dest) (args : list value) :=
    (platform_Call d cl "execute_kw" (credentials self ++ VString model :: args)
       (zero d) (outside w)).1.2 = Some e in
  let wrapped (prefix : string) := wrapError (prefix +:+ Error e) e in
  (∀ opts,
     fails DRecords
       [VString "search_read";
        VSlice (Some [VSlice (Some (elems (SearchReadOptions.Domain opts)))]);
        VMap (Some {[ "fields" := VStrings (SearchReadOptions.Fields opts);
                      "offset" := VInt (SearchReadOptions.Offset opts);
                      "limit" := VInt (SearchReadOptions.Limit opts);
                      "order" := VString (SearchReadOptions.Order opts) ]})] →
     (SearchReadRecords c model opts w).1 =
       Returns (None, Some (wrapped ("search_read failed for model " +:+ model +:+ ": ")))) ∧
  (∀ values,
     fails DInt64 [VString "create"; VSlice (Some [VMap values])] →
     (CreateRecord c model values w).1 =
       Returns (0, Some (wrapped ("create failed for model " +:+ model +:+ ": ")))) ∧
  (∀ id values,
     fails DBool [VString "write"; VSlice (Some [VInt64s (Some [id]); VMap values])] →
     (UpdateRecord c model id values w).1 =
       Returns (Some (wrapped ("update failed for model " +:+ model +:+ " with id "
                               +:+ pretty id +:+ ": ")))) ∧
  (∀ id,
     fails DBool [VString "unlink"; VSlice (Some [VInt64s (Some [id])])] →
     (DeleteRecord c model id w).1 =
       Returns (Some (wrapped ("delete failed for model " +:+ model +:+ " with id "
                               +:+ pretty id +:+ ": ")))) ∧
  (∀ method args kwargs,
     fails DAny (VString method :: VSlice args ::
                 match kwargs with Some m => [VMap (Some m)] | None => [] end) →
     (ExecuteMethod c model method args kwargs w).1 =
       Returns (VNil, Some (wrapped ("method execution failed for " +:+ model
                                     +:+ "." +:+ method +:+ ": ")))) ∧
  (∀ prefix, Unwrap (wrapped prefix) = Some e ∧
             Error (wrapped prefix) = prefix +:+ Error e).
Proof.
  intros Hc Hm fails wrapped. unfold fails.
  split; [|split; [|split; [|split; [|split]]]].
  - intros opts Hfail.
    rewrite (SearchReadRecords_run w c self cl model opts Hc Hm).
    cbn [fst snd]. cbn [zero] in Hfail. rewrite Hfail. reflexivity.
  - intros values Hfail.
    rewrite (CreateRecord_run w c self cl model values Hc Hm).
    cbn [fst snd]. cbn [zero] in Hfail. rewrite Hfail. reflexivity.
  - intros id values Hfail.
    rewrite (UpdateRecord_run w c self cl model id values Hc Hm).
    cbn [fst snd]. cbn [zero] in Hfail. rewrite Hfail. reflexivity.
  - intros id Hfail.
    rewrite (DeleteRecord_run w c self cl model id Hc Hm).
    cbn [fst snd]. cbn [zero] in Hfail. rewrite Hfail. reflexivity.
  - intros method args kwargs Hfail.
    rewrite (ExecuteMethod_run w c self cl model method args kwargs Hc Hm).
    cbn [fst snd app]. cbn [zero] in Hfail. rewrite Hfail. reflexivity.
  - intros prefix. split; reflexivity.
Qed.

(** X4.  A nil receiver, or a [Connector] whose data handle is nil (the zero
    [Connector]), makes every record operation panic: nothing is sent and
    the world is left exactly as it was. *)
Theorem record_operations_panic_on_nil (w : world) c model :
  (heap w !! c = None ∨
   ∃ self, heap w !! c = Some self ∧ Connector.models self = None) →
  (∀ opts, SearchReadRecords c model opts w = (Panics, w)) ∧
  (∀ values, CreateRecord c model values w = (Panics, w)) ∧
  (∀ id values, UpdateRecord c model id values w = (Panics, w)) ∧
  (∀ id, DeleteRecord c model id w = (Panics, w)) ∧
  (∀ method args kwargs, ExecuteMethod c model method args kwargs w = (Panics, w)).
Proof.
  intros Hnil.
  assert (unusable w c) as Hu.
  { unfold unusable. destruct Hnil as [-> | (self & -> & Hm)]; done. }
  destruct (record_ops_panic w c Hu) as (H1 & H2 & H3 & H4 & H5).
  repeat split; intros; auto.
Qed.


(** X6.  What a record operation sends depends on the receiver's fields alone:
    in two worlds that agree on the [Connector] at [c], however different
    their histories and servers, each operation appends the same events. *)
Theorem calls_depend_on_connector_only (w1 w2 : world) c model :
  heap w1 !! c = heap w2 !! c →
  let same {A} (op : M A) :=
    ∃ sent, trace (op w1).2 = (trace w1 ++ sent)%list ∧
            trace (op w2).2 = (trace w2 ++ sent)%list ∧
            (length sent ≤ 1)%nat in
  (∀ opts, same (SearchReadRecords c model opts)) ∧
  (∀ values, same (CreateRecord c model values)) ∧
  (∀ id values, same (UpdateRecord c model id values)) ∧
  (∀ id, same (DeleteRecord c model id)) ∧
  (∀ method args kwargs, same (ExecuteMethod c model method args kwargs)).
Proof.
  intros Hagree same. unfold same.
  destruct (usable_dec w1 c) as [Hu1 | (self & cl & Hc1 & Hm)].
  - assert (unusable w2 c) as Hu2 by (unfold unusable in *; by rewrite <- Hagree).
    destruct (record_ops_panic w1 c Hu1) as (Hs & Hcr & Hup & Hdel & Hx).
    destruct (record_ops_panic w2 c Hu2) as (Hs' & Hcr' & Hup' & Hdel' & Hx').
    repeat split; intros; exists [];
      rewrite ?Hs, ?Hcr, ?Hup, ?Hdel, ?Hx, ?Hs', ?Hcr', ?Hup', ?Hdel', ?Hx';
      cbn [snd length]; rewrite !app_nil_r; auto with lia.
  - assert (heap w2 !! c = Some self) as Hc2 by (by rewrite <- Hagree).
    split; [|split; [|split; [|split]]]; intros.
    + rewrite (SearchReadRecords_run w1 c self cl model opts Hc1 Hm).
      rewrite (SearchReadRecords_run w2 c self cl model opts Hc2 Hm).
      eexists [_]. cbn [snd length]. unfold after_call. cbn [trace set_outside set_trace].
      auto.
    + rewrite (CreateRecord_run w1 c self cl model values Hc1 Hm).
      rewrite (CreateRecord_run w2 c self cl model values Hc2 Hm).
      eexists [_]. cbn [snd length]. unfold after_call. cbn [trace set_outside set_trace].
      auto.
    + rewrite (UpdateRecord_run w1 c self cl model id values Hc1 Hm).
      rewrite (UpdateRecord_run w2 c self cl model id values Hc2 Hm).
      eexists [_]. cbn [snd length]. unfold after_call. cbn [trace set_outside set_trace].
      auto.
    + rewrite (DeleteRecord_run w1 c self cl model id Hc1 Hm).
      rewrite (DeleteRecord_run w2 c self cl model id Hc2 Hm).
      eexists [_]. cbn [snd length]. unfold after_call. cbn [trace set_outside set_trace].
      auto.
    + rewrite (ExecuteMethod_run w1 c self cl model method args kwargs Hc1 Hm).
      rewrite (ExecuteMethod_run w2 c self cl model method args kwargs Hc2 Hm).
      eexists [_]. cbn [snd length]. unfold after_call. cbn [trace set_outside set_trace].
      auto.
Qed.

End RecordOperations.

Section Construction.
Context `{P : Platform}.

Lemma log_lines_app (t1 t2 : list event) :
  log_lines (t1 ++ t2) = (log_lines t1 ++ log_lines t2)%list.
Proof. apply omap_app. Qed.

Lemma files_read_app (t1 t2 : list event) :
  files_read (t1 ++ t2) = (files_read t1 ++ files_read t2)%list.
Proof. apply omap_app. Qed.

(** Whatever happens, the heap after [NewConnector] is the heap before with
    one object added at a fresh address. *)
Lemma NewConnector_heap (w : world) url username apiKey db :
  ∃ v, heap (NewConnector url username apiKey db w).2 =
         <[fresh (dom (heap w)) := v]> (heap w).
Proof.
  rewrite NewConnector_run.
  repeat (match goal with |- context [match ?x with _ => _ end] =>
            destruct x end; cbn [snd heap]); eauto.
Qed.

(** A successful construction, spelled out. *)
Lemma NewConnector_success (w : world) url username apiKey db c :
  let tr := transports w in
  let cl1 := mkClient (url +:+ "/xmlrpc/2/common") tr in
  let cl2 := mkClient (url +:+ "/xmlrpc/2/object") tr in
  let auth := [VString db; VString username; VString apiKey; VStringMap (Some ∅)] in
  let d1 := platform_NewClient (url +:+ "/xmlrpc/2/common") tr (outside w) in
  let d2 := platform_NewClient (url +:+ "/xmlrpc/2/object") tr d1.2 in
  let a := platform_Call DInt cl1 "authenticate" auth 0 d2.2 in
  let out := NewConnector url username apiKey db w in
  out.1 = Returns (Some c, None) →
  c = fresh (dom (heap w)) ∧
  d1.1 = None ∧ d2.1 = None ∧ a.1.2 = None ∧ a.1.1 ≠ 0 ∧
  out.2 =
    World (<[c := Connector.mk url username apiKey db a.1.1 (Some cl1) (Some cl2)]>
             (heap w))
          (S tr)
          (trace w ++
           [EvNewClient (url +:+ "/xmlrpc/2/common") tr; EvAssign c f_common;
            EvNewClient (url +:+ "/xmlrpc/2/object") tr; EvAssign c f_models;
            EvCall cl1 "authenticate" auth; EvAssign c f_UID;
            EvLog ("Successfully initialized Odoo connector with UID: "
                   +:+ pretty a.1.1)])
          a.2.
Proof.
  intros tr cl1 cl2 auth d1 d2 a out. subst out. rewrite NewConnector_run.
  fold tr cl1 cl2 auth d1 d2 a.
  destruct d1.1; [discriminate|]. destruct d2.1; [discriminate|].
  destruct a.1.2; [discriminate|].
  destruct (Z.eqb_spec a.1.1 0) as [|Hne]; [discriminate|].
  cbn [fst snd]. intros [= <-]. repeat split; auto.
Qed.

(** A connector that was built is usable. *)
Lemma NewConnector_usable (w : world) url username apiKey db c :
  (NewConnector url username apiKey db w).1 = Returns (Some c, None) →
  ∃ self cl, heap (NewConnector url username apiKey db w).2 !! c = Some self ∧
             Connector.models self = Some cl.
Proof.
  intros Hout.
  destruct (NewConnector_success w url username apiKey db c Hout)
    as (_ & _ & _ & _ & _ & ->).
  cbn [heap]. rewrite lookup_insert_eq. eexists _, _. split; reflexivity.
Qed.

(** X7.  [NewConnector] never panics and returns exactly one of the two: a
    [Connector] at an address that was free, with a nil error, or a nil
    [Connector] with an error. *)
Theorem NewConnector_connector_xor_error (w : world) url username apiKey db :
  let out := NewConnector url username apiKey db w in
  (∃ c, out.1 = Returns (Some c, None) ∧
        heap w !! c = None ∧ is_Some (heap out.2 !! c)) ∨
  (∃ e, out.1 = Returns (None, Some e)).
Proof.
  intros out. subst out. rewrite NewConnector_run.
  repeat (match goal with |- context [match ?x with _ => _ end] =>
            destruct x end; cbn [fst snd heap]); eauto.
  left. eexists. split; [reflexivity|]. split.
  - apply not_elem_of_dom, is_fresh.
  - rewrite lookup_insert_eq. eauto.
Qed.

(** X8.  The [Connector] a successful [NewConnector] returns stores the four
    arguments as given, the session identifier the server answered, and the
    handles of the two endpoints. *)
Theorem NewConnector_stores_arguments (w : world) url username apiKey db c :
  let out := NewConnector url username apiKey db w in
  out.1 = Returns (Some c, None) →
  ∃ self, heap out.2 !! c = Some self ∧
    Connector.URL self = url ∧ Connector.Username self = username ∧
    Connector.APIKey self = apiKey ∧ Connector.DB self = db ∧
    Connector.common self = Some (mkClient (url +:+ "/xmlrpc/2/common") (transports w)) ∧
    Connector.models self = Some (mkClient (url +:+ "/xmlrpc/2/object") (transports w)).
Proof.
  intros out Hout.
  destruct (NewConnector_success w url username apiKey db c Hout)
    as (_ & _ & _ & _ & _ & Hw).
  subst out. rewrite Hw. cbn [heap]. rewrite lookup_insert_eq.
  eexists. split; [reflexivity|]. repeat split.
Qed.

(** X9.  [NewConnector] leaves every existing [Connector] as it was, whether it
    succeeds or fails. *)
Theorem NewConnector_preserves_connectors (w : world) url username apiKey db l self :
  heap w !! l = Some self →
  heap (NewConnector url username apiKey db w).2 !! l = Some self.
Proof.
  intros Hl.
  destruct (NewConnector_heap w url username apiKey db) as [v ->].
  rewrite lookup_insert_ne; [exact Hl|].
  intros <-. pose proof (is_fresh (dom (heap w))) as Hfresh.
  apply not_elem_of_dom in Hfresh. congruence.
Qed.

(** X10.  During construction exactly one remote call is issued, and only once
    both endpoints are established: "authenticate" on the session endpoint
    with (db, username, apiKey, {}).  If either endpoint cannot be
    established nothing is sent. *)
Theorem NewConnector_authenticates_once (w : world) url username apiKey db :
  let tr := transports w in
  let d1 := platform_NewClient (url +:+ "/xmlrpc/2/common") tr (outside w) in
  let d2 := platform_NewClient (url +:+ "/xmlrpc/2/object") tr d1.2 in
  let out := NewConnector url username apiKey db w in
  (d1.1 = None → d2.1 = None →
     remote_calls (trace out.2) =
       (remote_calls (trace w) ++
        [(mkClient (url +:+ "/xmlrpc/2/common") tr, "authenticate",
          [VString db; VString username; VString apiKey; VStringMap (Some ∅)])])%list) ∧
  (is_Some d1.1 ∨ is_Some d2.1 → remote_calls (trace out.2) = remote_calls (trace w)).
Proof.
  intros tr d1 d2 out. subst out. rewrite NewConnector_run. fold tr d1 d2.
  set (a := platform_Call DInt _ _ _ _ _).
  split.
  - intros -> ->.
    destruct a.1.2; [|destruct (Z.eqb a.1.1 0)]; cbn [snd trace];
      rewrite !remote_calls_app; cbn; rewrite ?app_nil_r; reflexivity.
  - intros Hfail. destruct d1.1 as [e1|].
    + cbn [snd trace]. rewrite remote_calls_app. cbn. apply app_nil_r.
    + destruct Hfail as [[? [=]] | [e2 ->]].
      cbn [snd trace]. rewrite !remote_calls_app. cbn. apply app_nil_r.
Qed.

(** X11.  The two ways authentication fails are told apart: a failed call gives
    an error that wraps the cause and carries its text after
    "authentication failed: "; an answer of 0 gives the "invalid
    credentials" error, which wraps nothing.  Either way no [Connector] is
    returned. *)
Theorem NewConnector_authentication_errors (w : world) url username apiKey db :
  let tr := transports w in
  let d1 := platform_NewClient (url +:+ "/xmlrpc/2/common") tr (outside w) in
  let d2 := platform_NewClient (url +:+ "/xmlrpc/2/object") tr d1.2 in
  let a := platform_Call DInt (mkClient (url +:+ "/xmlrpc/2/common") tr)
             "authenticate"
             [VString db; VString username; VString apiKey; VStringMap (Some ∅)]
             0 d2.2 in
  let out := NewConnector url username apiKey db w in
  d1.1 = None → d2.1 = None →
  (∀ e, a.1.2 = Some e →
     ∃ err, out.1 = Returns (None, Some err) ∧ Unwrap err = Some e ∧
            Error err = "authentication failed: " +:+ Error e) ∧
  (a.1.2 = None → a.1.1 = 0 →
     ∃ err, out.1 = Returns (None, Some err) ∧ Unwrap err = None ∧
            Error err = "authentication failed: invalid credentials").
Proof.
  intros tr d1 d2 a out Hd1 Hd2. subst out. rewrite NewConnector_run.
  fold tr d1 d2 a. rewrite Hd1, Hd2. split.
  - intros e ->. eexists. split; [reflexivity|]. split; reflexivity.
  - intros -> ->. eexists. split; [reflexivity|]. split; reflexivity.
Qed.

(** X12.  One line is logged, and only on success: it carries the session
    identifier in decimal.  A failed construction logs nothing. *)
Theorem NewConnector_logs_success_only (w : world) url username apiKey db :
  let out := NewConnector url username apiKey db w in
  (∀ c, out.1 = Returns (Some c, None) →
     ∃ self, heap out.2 !! c = Some self ∧
       log_lines (trace out.2) =
         (log_lines (trace w) ++
          ["Successfully initialized Odoo connector with UID: "
           +:+ pretty (Connector.UID self)])%list) ∧
  (∀ e, out.1 = Returns (None, Some e) →
     log_lines (trace out.2) = log_lines (trace w)).
Proof.
  intros out. split.
  - intros c Hout.
    destruct (NewConnector_success w url username apiKey db c Hout)
      as (_ & _ & _ & _ & _ & Hw).
    subst out. rewrite Hw. cbn [heap trace]. rewrite lookup_insert_eq.
    eexists. split; [reflexivity|].
    rewrite log_lines_app. reflexivity.
  - subst out. rewrite NewConnector_run. intros e.
    repeat (match goal with |- context [match ?x with _ => _ end] =>
              destruct x end; cbn [fst snd trace]);
      try discriminate; intros _;
      rewrite !log_lines_app; cbn; rewrite ?app_nil_r; reflexivity.
Qed.

End Construction.

Section Composition.
Context `{P : Platform}.

(** X13.  Every record operation on a [Connector] built by [NewConnector], in any
    later world that still holds it unchanged, returns without panic and
    sends one "execute_kw" call to the data endpoint "<url>/xmlrpc/2/object"
    that starts with the database, the session identifier the server gave at
    construction, the API key and the model. *)
Theorem built_connector_sends_session (w w' : world) url username apiKey db c model :
  let tr := transports w in
  let d1 := platform_NewClient (url +:+ "/xmlrpc/2/common") tr (outside w) in
  let d2 := platform_NewClient (url +:+ "/xmlrpc/2/object") tr d1.2 in
  let a := platform_Call DInt (mkClient (url +:+ "/xmlrpc/2/common") tr)
             "authenticate"
             [VString db; VString username; VString apiKey; VStringMap (Some ∅)]
             0 d2.2 in
  let out := NewConnector url username apiKey db w in
  out.1 = Returns (Some c, None) →
  heap w' !! c = heap out.2 !! c →
  let head := [VString db; VInt a.1.1; VString apiKey; VString model] in
  let sends {A} (op : M A) :=
    (op w').1 ≠ Panics ∧
    ∃ rest, trace (op w').2 =
      (trace w' ++ [EvCall (mkClient (url +:+ "/xmlrpc/2/object") tr)
                      "execute_kw" (head ++ rest)])%list in
  (∀ opts, sends (SearchReadRecords c model opts)) ∧
  (∀ values, sends (CreateRecord c model values)) ∧
  (∀ id values, sends (UpdateRecord c model id values)) ∧
  (∀ id, sends (DeleteRecord c model id)) ∧
  (∀ method args kwargs, sends (ExecuteMethod c model method args kwargs)).
Proof.
  intros tr d1 d2 a out Hout Hsame head sends. unfold sends.
  destruct (NewConnector_success w url username apiKey db c Hout)
    as (_ & _ & _ & _ & _ & Hw).
  fold tr d1 d2 a in Hw. subst out. rewrite Hw in Hsame. cbn [heap] in Hsame.
  rewrite lookup_insert_eq in Hsame.
  set (self := Connector.mk url username apiKey db a.1.1 _ _) in Hsame.
  assert (Connector.models self = Some (mkClient (url +:+ "/xmlrpc/2/object") tr))
    as Hm by reflexivity.
  split; [|split; [|split; [|split]]]; intros.
  - rewrite (SearchReadRecords_run w' c self _ model opts Hsame Hm).
    split; [discriminate|]. eexists. reflexivity.
  - rewrite (CreateRecord_run w' c self _ model values Hsame Hm).
    split; [discriminate|]. eexists. reflexivity.
  - rewrite (UpdateRecord_run w' c self _ model id values Hsame Hm).
    split; [discriminate|]. eexists. reflexivity.
  - rewrite (DeleteRecord_run w' c self _ model id Hsame Hm).
    split; [discriminate|]. eexists. reflexivity.
  - rewrite (ExecuteMethod_run w' c self _ model method args kwargs Hsame Hm).
    split; [discriminate|]. eexists. reflexivity.
Qed.

(** X14.  Two constructions in a row give two distinct [Connector]s; the second
    leaves the first as it was, and their handles are on different
    transports. *)
Theorem NewConnector_twice_independent (w : world)
    url1 username1 apiKey1 db1 url2 username2 apiKey2 db2 c1 c2 :
  let first := NewConnector url1 username1 apiKey1 db1 w in
  let second := NewConnector url2 username2 apiKey2 db2 first.2 in
  first.1 = Returns (Some c1, None) →
  second.1 = Returns (Some c2, None) →
  c1 ≠ c2 ∧
  heap second.2 !! c1 = heap first.2 !! c1 ∧
  ∃ s1 s2, heap second.2 !! c1 = Some s1 ∧ heap second.2 !! c2 = Some s2 ∧
           transport <$> Connector.common s1 ≠ transport <$> Connector.common s2 ∧
           transport <$> Connector.models s1 ≠ transport <$> Connector.models s2.
Proof.
  intros first second H1 H2.
  destruct (NewConnector_success w _ _ _ _ c1 H1) as (_ & _ & _ & _ & _ & Hw1).
  destruct (NewConnector_success first.2 _ _ _ _ c2 H2)
    as (Hc2 & _ & _ & _ & _ & Hw2).
  fold first in Hw1. fold second in Hw2.
  assert (is_Some (heap first.2 !! c1)) as Hin.
  { rewrite Hw1. cbn [heap]. rewrite lookup_insert_eq. eauto. }
  assert (c1 ≠ c2) as Hne.
  { intros ->. pose proof (is_fresh (dom (heap first.2))) as Hfresh.
    rewrite <- Hc2 in Hfresh. apply not_elem_of_dom in Hfresh.
    rewrite Hfresh in Hin. by destruct Hin. }
  assert (heap second.2 !! c1 = heap first.2 !! c1) as Hkeep.
  { rewrite Hw2. cbn [heap]. by rewrite lookup_insert_ne. }
  split; [exact Hne|]. split; [exact Hkeep|].
  eexists _, _. split; [|split].
  - rewrite Hkeep, Hw1. cbn [heap]. apply lookup_insert_eq.
  - rewrite Hw2. cbn [heap]. apply lookup_insert_eq.
  - rewrite Hw1. cbn [transports fmap option_fmap option_map Connector.common
                      Connector.models transport].
    split; intros [= Heq]; lia.
Qed.

End Composition.

Section Configuration.
Context `{P : Platform}.

(** X15.  A file that cannot be read fails [LoadConfig] with an error wrapping the
    cause behind "failed to read config file: ", whatever the decoder would
    say; a file that is read but cannot be parsed fails it with an error
    wrapping the decoder's behind "failed to parse config file: ", whatever
    fields were decoded before the failure. *)
Theorem LoadConfig_read_and_parse_errors (w : world) path :
  let file := platform_ReadFile path (outside w) in
  let parsed := platform_Unmarshal file.1.1 Config.zero in
  let out := LoadConfig path w in
  (∀ e, file.1.2 = Some e →
     out.1 = Returns (None, Some (wrapError ("failed to read config file: "
                                              +:+ Error e) e))) ∧
  (∀ e, file.1.2 = None → parsed.2 = Some e →
     out.1 = Returns (None, Some (wrapError ("failed to parse config file: "
                                              +:+ Error e) e))).
Proof.
  intros file parsed out. subst out. rewrite LoadConfig_run. fold file parsed.
  split.
  - intros e ->. reflexivity.
  - intros e -> ->. reflexivity.
Qed.

(** X16.  [LoadConfig] never panics and returns exactly one of the two: a config
    with a nil error, and then the file was read and parsed without error
    and none of the four fields is empty; or a nil config with an error. *)
Theorem LoadConfig_config_xor_error (w : world) path :
  let file := platform_ReadFile path (outside w) in
  let parsed := platform_Unmarshal file.1.1 Config.zero in
  let out := LoadConfig path w in
  (∃ config, out.1 = Returns (Some config, None) ∧
             file.1.2 = None ∧ parsed = (config, None) ∧
             ∀ f, field_value config f ≠ EmptyString) ∨
  (∃ e, out.1 = Returns (None, Some e)).
Proof.
  intros file parsed out. subst out. rewrite LoadConfig_run. fold file parsed.
  cbn [fst].
  destruct file.1.2 as [e|]; [right; eauto|].
  destruct parsed as [config [e|]]; cbn [fst snd]; [right; eauto|].
  destruct (String.eqb_spec (Config.URL config) EmptyString); [right; eauto|].
  destruct (String.eqb_spec (Config.Username config) EmptyString); [right; eauto|].
  destruct (String.eqb_spec (Config.APIKey config) EmptyString); [right; eauto|].
  destruct (String.eqb_spec (Config.DB config) EmptyString); [right; eauto|].
  left. exists config. repeat split. intros []; assumption.
Qed.

(** The world [LoadConfig] leaves. *)
Lemma LoadConfig_world (w : world) path :
  (LoadConfig path w).2 =
    World (heap w) (transports w) (trace w ++ [EvReadFile path])
          (platform_ReadFile path (outside w)).2.
Proof. rewrite LoadConfig_run. reflexivity. Qed.

(** X17.  The only effect of [LoadConfig] is one read of the file at [path]: no
    endpoint is opened, no remote call is issued, nothing is logged, and no
    [Connector] is created or changed. *)
Theorem LoadConfig_only_reads (w : world) path :
  let out := LoadConfig path w in
  files_read (trace out.2) = (files_read (trace w) ++ [path])%list ∧
  endpoints_opened (trace out.2) = endpoints_opened (trace w) ∧
  remote_calls (trace out.2) = remote_calls (trace w) ∧
  log_lines (trace out.2) = log_lines (trace w) ∧
  framed w out.2.
Proof.
  intros out. subst out. rewrite LoadConfig_world.
  unfold framed. cbn [trace heap transports].
  rewrite files_read_app, endpoints_opened_app, remote_calls_app, log_lines_app,
    UID_assignments_app.
  cbn. rewrite !app_nil_r. repeat split.
  intros c f Hin. apply elem_of_app in Hin as [Hin|Hin]; [exact Hin|].
  apply list_elem_of_singleton in Hin. discriminate Hin.
Qed.

(** [NewConnectorFromConfig], step by step. *)
Lemma NewConnectorFromConfig_run (w : world) configPath :
  NewConnectorFromConfig configPath w =
    match (LoadConfig configPath w).1 with
    | Returns (_, Some err) =>
        (Returns (None, Some err), (LoadConfig configPath w).2)
    | Returns (Some config, None) =>
        NewConnector (Config.URL config) (Config.Username config)
                     (Config.APIKey config) (Config.DB config)
                     (LoadConfig configPath w).2
    | _ => (Panics, (LoadConfig configPath w).2)
    end.
Proof.
  unfold NewConnectorFromConfig. rewrite bind_run.
  destruct (LoadConfig configPath w) as [[[[config|] [e|]]|] w']; reflexivity.
Qed.

(** X18.  When the configuration cannot be loaded, [NewConnectorFromConfig] stays
    off the network: it returns the loader's error with no [Connector],
    opens no endpoint, issues no remote call, and allocates nothing. *)
Theorem NewConnectorFromConfig_config_error_offline (w : world) configPath e :
  (LoadConfig configPath w).1 = Returns (None, Some e) →
  let out := NewConnectorFromConfig configPath w in
  out.1 = Returns (None, Some e) ∧
  heap out.2 = heap w ∧
  transports out.2 = transports w ∧
  endpoints_opened (trace out.2) = endpoints_opened (trace w) ∧
  remote_calls (trace out.2) = remote_calls (trace w).
Proof.
  intros Hload out. subst out. rewrite NewConnectorFromConfig_run, Hload.
  cbn [fst snd]. split; [reflexivity|].
  rewrite LoadConfig_world. cbn [heap transports trace].
  rewrite endpoints_opened_app, remote_calls_app. cbn.
  rewrite !app_nil_r. auto.
Qed.

(** [NewConnector] returns, with a connector or with an error. *)
Lemma NewConnector_outcome (w : world) url username apiKey db :
  (∃ c, (NewConnector url username apiKey db w).1 = Returns (Some c, None)) ∨
  (∃ e, (NewConnector url username apiKey db w).1 = Returns (None, Some e)).
Proof.
  rewrite NewConnector_run.
  repeat (match goal with |- context [match ?x with _ => _ end] =>
            destruct x end; cbn [fst]); eauto.
Qed.

(** [LoadConfig] returns, with a config or with an error. *)
Lemma LoadConfig_outcome (w : world) path :
  (∃ config, (LoadConfig path w).1 = Returns (Some config, None)) ∨
  (∃ e, (LoadConfig path w).1 = Returns (None, Some e)).
Proof.
  rewrite LoadConfig_run. cbn [fst].
  repeat (match goal with |- context [match ?x with _ => _ end] =>
            destruct x end); eauto.
Qed.

(** X19.  [NewConnectorFromConfig] never panics: the nil config it would
    dereference never comes with a nil error.  It returns exactly one of the two: a
    [Connector] at an address that was free, or an error. *)
Theorem NewConnectorFromConfig_connector_xor_error (w : world) configPath :
  let out := NewConnectorFromConfig configPath w in
  (∃ c, out.1 = Returns (Some c, None) ∧ heap w !! c = None) ∨
  (∃ e, out.1 = Returns (None, Some e)).
Proof.
  intros out. subst out. rewrite NewConnectorFromConfig_run.
  destruct (LoadConfig_outcome w configPath) as [[config ->] | [e ->]];
    [|right; eauto].
  destruct (NewConnector_outcome (LoadConfig configPath w).2
              (Config.URL config) (Config.Username config)
              (Config.APIKey config) (Config.DB config)) as [[c Hc] | [e He]];
    [left | right; eauto].
  exists c. split; [exact Hc|].
  destruct (NewConnector_success _ _ _ _ _ c Hc) as (-> & _).
  rewrite LoadConfig_world. cbn [heap]. apply not_elem_of_dom, is_fresh.
Qed.

(** X20.  The [Connector] a successful [NewConnectorFromConfig] returns is built
    from the loaded file: it stores the config's url, username, api_key and
    db, and the one remote call issued on the way is "authenticate" on
    "<url>/xmlrpc/2/common" with the config's (db, username, api_key, {}). *)
Theorem NewConnectorFromConfig_uses_config (w : world) configPath c :
  let out := NewConnectorFromConfig configPath w in
  out.1 = Returns (Some c, None) →
  ∃ config self,
    (LoadConfig configPath w).1 = Returns (Some config, None) ∧
    heap out.2 !! c = Some self ∧
    Connector.URL self = Config.URL config ∧
    Connector.Username self = Config.Username config ∧
    Connector.APIKey self = Config.APIKey config ∧
    Connector.DB self = Config.DB config ∧
    files_read (trace out.2) = (files_read (trace w) ++ [configPath])%list ∧
    remote_calls (trace out.2) =
      (remote_calls (trace w) ++
       [(mkClient (Config.URL config +:+ "/xmlrpc/2/common") (transports w),
         "authenticate",
         [VString (Config.DB config); VString (Config.Username config);
          VString (Config.APIKey config); VStringMap (Some ∅)])])%list.
Proof.
  intros out. subst out. rewrite NewConnectorFromConfig_run.
  destruct (LoadConfig_outcome w configPath) as [[config Hload] | [e Hload]];
    rewrite Hload; [|discriminate].
  intros Hnew. exists config.
  destruct (NewConnector_success _ _ _ _ _ c Hnew) as (_ & _ & _ & _ & _ & Hw).
  rewrite Hw. rewrite LoadConfig_world. cbn [heap trace transports outside].
  eexists. split; [reflexivity|]. rewrite lookup_insert_eq.
  split; [reflexivity|]. repeat (split; [reflexivity|]).
  rewrite !files_read_app, !remote_calls_app. cbn. rewrite !app_nil_r.
  split; reflexivity.
Qed.

End Configuration.

Section ExamplePrograms.
Context `{P : Platform}.
Variable Sprint_v : value → string.

(** The loop writes one line per lead, in order, after what was written. *)
Lemma range_leads_lines (leads : list (option (gmap string value))) stdout :
  range_leads Sprint_v leads stdout = (stdout ++ (lead_line Sprint_v <$> leads))%list.
Proof.
  revert stdout. induction leads as [|lead rest IH]; intros stdout; cbn [range_leads].
  - by rewrite app_nil_r.
  - rewrite IH, <- app_assoc. reflexivity.
Qed.

Lemma log_Fatal_run (w : world) e :
  log_Fatal e w =
    (Returns (Exit 1),
     World (heap w) (transports w) (trace w ++ [EvLog (Error e)]) (outside w)).
Proof. reflexivity. Qed.

(** From a connector and its search to the end of an example: the lines of
    the leads found, or the fatal exit on the error of the search. *)
Lemma search_and_print (w : world) c self cl opts :
  heap w !! c = Some self →
  Connector.models self = Some cl →
  let found := SearchReadRecords c "crm.lead" opts w in
  let out :=
    (on_Connector (Some c) (λ c, SearchReadRecords c "crm.lead" opts) ≫=
       λ '(leads, err),
         match err with
         | Some err => e ← log_Fatal err; mret ([], e)
         | None => mret (range_leads Sprint_v (elems leads) [], Returned)
         end) w in
  (∃ leads,
     found.1 = Returns (leads, None) ∧
     out = (Returns (lead_line Sprint_v <$> elems leads, Returned), found.2)) ∨
  (∃ err,
     found.1 = Returns (None, Some err) ∧
     out = (Returns ([], Exit 1),
            World (heap found.2) (transports found.2)
                  (trace found.2 ++ [EvLog (Error err)]) (outside found.2))).
Proof.
  intros Hc Hm found out. subst found out. rewrite bind_run. unfold on_Connector.
  rewrite (SearchReadRecords_run w c self cl "crm.lead" opts Hc Hm).
  cbn [fst snd].
  destruct (platform_Call _ _ _ _ _ _) as [[leads [e|]] x]; cbn [fst snd].
  - right. eexists. split; reflexivity.
  - left. exists leads. split; [reflexivity|].
    unfold mret, M_ret. rewrite range_leads_lines. reflexivity.
Qed.

(** X21.  [Example] never panics.  Either construction and the search both
    succeed, and it returns having printed one line per lead the search
    returned, in the server's order, with no effect beyond those of the two
    operations; or one of them fails with an error, and it prints nothing,
    logs the text of that error last and exits with status 1. *)
Theorem Example_ends (w : world) :
  let built := NewConnector "https://your-odoo-instance.com" "your-username"
                 "your-api-key" "your-database" w in
  let search c :=
    SearchReadRecords c "crm.lead"
      (SearchReadOptions.mk
         (Some ["id"; "name"; "email_from"])
         (Some [VSlice (Some [VString "type"; VString "="; VString "lead"])])
         0 10 "create_date desc") built.2 in
  let out := Example Sprint_v w in
  (∃ c leads,
     built.1 = Returns (Some c, None) ∧
     (search c).1 = Returns (leads, None) ∧
     out = (Returns (lead_line Sprint_v <$> elems leads, Returned), (search c).2)) ∨
  (∃ err,
     (built.1 = Returns (None, Some err) ∨
      ∃ c, built.1 = Returns (Some c, None) ∧
           (search c).1 = Returns (None, Some err)) ∧
     out.1 = Returns ([], Exit 1) ∧
     last (log_lines (trace out.2)) = Some (Error err)).
Proof.
  intros built search out. subst out search. unfold Example. rewrite bind_run.
  pose proof (NewConnector_outcome w "https://your-odoo-instance.com"
                "your-username" "your-api-key" "your-database") as Hcases.
  pose proof (λ c, NewConnector_usable w "https://your-odoo-instance.com"
                     "your-username" "your-api-key" "your-database" c) as Huse.
  fold built in Hcases, Huse |- *. clearbody built.
  destruct built as [r w1]. cbn [fst snd] in *.
  destruct Hcases as [[c Hc] | [e He]]; subst r; cbn iota beta.
  - destruct (Huse c eq_refl) as (self & cl & Hself & Hm).
    destruct (search_and_print w1 c self cl
                (SearchReadOptions.mk
                   (Some ["id"; "name"; "email_from"])
                   (Some [VSlice (Some [VString "type"; VString "="; VString "lead"])])
                   0 10 "create_date desc") Hself Hm)
      as [(leads & Hfound & ->) | (err & Hfound & ->)].
    + left. exists c, leads. auto.
    + right. exists err. split; [right; eauto|]. split; [reflexivity|].
      cbn [snd trace]. rewrite log_lines_app. apply last_snoc.
  - rewrite bind_run, log_Fatal_run. unfold mret, M_ret.
    cbn [fst snd trace].
    right. exists e. split; [left; reflexivity|]. split; [reflexivity|].
    rewrite log_lines_app. apply last_snoc.
Qed.

(** X22.  [ExampleNewConnectorFromConfig] never panics.  Either building the
    connector from "config.json" and the search for the leads in stage "New"
    both succeed, and it returns having printed one line per lead the search
    returned, in the server's order, with no effect beyond those of the two
    operations; or one of them fails with an error, and it prints nothing,
    logs the text of that error last and exits with status 1. *)
Theorem ExampleNewConnectorFromConfig_ends (w : world) :
  let built := NewConnectorFromConfig "config.json" w in
  let search c :=
    SearchReadRecords c "crm.lead"
      (SearchReadOptions.mk
         (Some ["id"; "name"])
         (Some [VSlice (Some [VString "stage_id.name"; VString "="; VString "New"])])
         0 0 EmptyString) built.2 in
  let out := ExampleNewConnectorFromConfig Sprint_v w in
  (∃ c leads,
     built.1 = Returns (Some c, None) ∧
     (search c).1 = Returns (leads, None) ∧
     out = (Returns (lead_line Sprint_v <$> elems leads, Returned), (search c).2)) ∨
  (∃ err,
     (built.1 = Returns (None, Some err) ∨
      ∃ c, built.1 = Returns (Some c, None) ∧
           (search c).1 = Returns (None, Some err)) ∧
     out.1 = Returns ([], Exit 1) ∧
     last (log_lines (trace out.2)) = Some (Error err)).
Proof.
  intros built search out. subst out search.
  unfold ExampleNewConnectorFromConfig. rewrite bind_run.
  assert ((∃ c self cl, built.1 = Returns (Some c, None) ∧
                        heap built.2 !! c = Some self ∧
                        Connector.models self = Some cl) ∨
          (∃ e, built.1 = Returns (None, Some e))) as Hcases.
  { subst built. rewrite NewConnectorFromConfig_run.
    destruct (LoadConfig_outcome w "config.json") as [[config ->] | [e ->]];
      [|right; eauto].
    destruct (NewConnector_outcome (LoadConfig "config.json" w).2
                (Config.URL config) (Config.Username config)
                (Config.APIKey config) (Config.DB config)) as [[c Hc] | [e He]];
      [left | right; eauto].
    destruct (NewConnector_usable _ _ _ _ _ c Hc) as (self & cl & Hself & Hm).
    eauto 10. }
  fold built. clearbody built.
  destruct built as [r w1]. cbn [fst snd] in *.
  destruct Hcases as [(c & self & cl & Hc & Hself & Hm) | [e He]]; subst r;
    cbn iota beta.
  - destruct (search_and_print w1 c self cl
                (SearchReadOptions.mk
                   (Some ["id"; "name"])
                   (Some [VSlice (Some [VString "stage_id.name"; VString "=";
                                        VString "New"])])
                   0 0 EmptyString) Hself Hm)
      as [(leads & Hfound & ->) | (err & Hfound & ->)].
    + left. exists c, leads. auto.
    + right. exists err. split; [right; eauto|]. split; [reflexivity|].
      cbn [snd trace]. rewrite log_lines_app. apply last_snoc.
  - rewrite bind_run, log_Fatal_run. unfold mret, M_ret.
    cbn [fst snd trace].
    right. exists e. split; [left; reflexivity|]. split; [reflexivity|].
    rewrite log_lines_app. apply last_snoc.
Qed.

End ExamplePrograms.

(** * The rest of the code on the stub platform *)

Lemma CreateRecord_one_call_witness :
  let w := Stub.ready Scenario.good 0%nat in
  heap w !! 0%nat = Some Stub.connector ∧
  Connector.models Stub.connector = Some Scenario.object ∧
  (CreateRecord 0%nat "crm.lead" (Some ∅) w).1 = Returns (42, None).
Proof.
  intros w.
  assert (heap w !! 0%nat = Some Stub.connector) as Hc by evaluate.
  assert (Connector.models Stub.connector = Some Scenario.object) as Hm by evaluate.
  split; [exact Hc|]. split; [exact Hm|].
  destruct (CreateRecord_one_call (P := Scenario.good) w 0%nat Stub.connector
              Scenario.object "crm.lead" (Some ∅) Hc Hm) as (_ & H).
  specialize (H ltac:(evaluate)). conclude H.
Defined.

Lemma UpdateRecord_DeleteRecord_calls_witness :
  let w := Stub.ready Scenario.good 0%nat in
  heap w !! 0%nat = Some Stub.connector ∧
  Connector.models Stub.connector = Some Scenario.object ∧
  trace (DeleteRecord 0%nat "crm.lead" 5 w).2 =
    [EvCall Scenario.object "execute_kw"
       [VString "d"; VInt 7; VString "k"; VString "crm.lead"; VString "unlink";
        VSlice (Some [VInt64s (Some [5])])]].
Proof.
  intros w.
  assert (heap w !! 0%nat = Some Stub.connector) as Hc by evaluate.
  assert (Connector.models Stub.connector = Some Scenario.object) as Hm by evaluate.
  split; [exact Hc|]. split; [exact Hm|].
  destruct (UpdateRecord_DeleteRecord_calls (P := Scenario.good) w 0%nat
              Stub.connector Scenario.object "crm.lead" 5 None Hc Hm) as (_ & H).
  conclude H.
Defined.

Lemma record_errors_name_their_target_witness :
  let w := Stub.ready Scenario.down 0%nat in
  heap w !! 0%nat = Some Stub.connector ∧
  Connector.models Stub.connector = Some Scenario.object ∧
  (UpdateRecord 0%nat "crm.lead" 5 (Some ∅) w).1 =
    Returns (Some (wrapError
      "update failed for model crm.lead with id 5: i/o timeout" Stub.timeout)).
Proof.
  intros w.
  assert (heap w !! 0%nat = Some Stub.connector) as Hc by evaluate.
  assert (Connector.models Stub.connector = Some Scenario.object) as Hm by evaluate.
  split; [exact Hc|]. split; [exact Hm|].
  destruct (record_errors_name_their_target (P := Scenario.down) w 0%nat
              Stub.connector Scenario.object "crm.lead" Stub.timeout Hc Hm)
    as (_ & _ & H & _).
  specialize (H 5 (Some ∅) ltac:(evaluate)). conclude H.
Defined.

Lemma record_operations_panic_on_nil_witness :
  let w := Stub.boot Scenario.good 0%nat in
  heap w !! 0%nat = None ∧
  SearchReadRecords 0%nat "crm.lead" Scenario.opts w = (Panics, w).
Proof.
  intros w.
  assert (heap w !! 0%nat = None) as Hnil by evaluate.
  split; [exact Hnil|].
  destruct (record_operations_panic_on_nil (P := Scenario.good) w 0%nat "crm.lead"
              (or_introl Hnil)) as (H & _).
  exact (H Scenario.opts).
Defined.

Lemma calls_depend_on_connector_only_witness :
  let w1 := Stub.ready Scenario.good 0%nat in
  let w2 := Outage.later Scenario.good 9%nat in
  heap w1 !! 0%nat = heap w2 !! 0%nat ∧
  ∃ sent,
    trace (CreateRecord 0%nat "crm.lead" None w1).2 = (trace w1 ++ sent)%list ∧
    trace (CreateRecord 0%nat "crm.lead" None w2).2 = (trace w2 ++ sent)%list ∧
    (length sent ≤ 1)%nat.
Proof.
  intros w1 w2.
  assert (heap w1 !! 0%nat = heap w2 !! 0%nat) as Hagree by evaluate.
  split; [exact Hagree|].
  destruct (calls_depend_on_connector_only (P := Scenario.good) w1 w2 0%nat
              "crm.lead" Hagree) as (_ & H & _).
  exact (H None).
Defined.

Lemma NewConnector_stores_arguments_witness :
  let P := Scenario.good in
  let out := NewConnector "http://x" "u" "k" "d" (Stub.boot P 0%nat) in
  out.1 = Returns (Some 0%nat, None) ∧
  ∃ self, heap out.2 !! 0%nat = Some self ∧
    Connector.URL self = "http://x" ∧ Connector.Username self = "u" ∧
    Connector.APIKey self = "k" ∧ Connector.DB self = "d" ∧
    Connector.common self =
      Some (mkClient ("http://x" +:+ "/xmlrpc/2/common") 0%nat) ∧
    Connector.models self =
      Some (mkClient ("http://x" +:+ "/xmlrpc/2/object") 0%nat).
Proof.
  intros P out.
  assert (out.1 = Returns (Some 0%nat, None)) as Hout by evaluate.
  split; [exact Hout|].
  exact (NewConnector_stores_arguments (P := Scenario.good) (Stub.boot P 0%nat)
           "http://x" "u" "k" "d" 0%nat Hout).
Defined.

Lemma NewConnector_preserves_connectors_witness :
  let w := Stub.ready Scenario.rejecting 0%nat in
  heap w !! 0%nat = Some Stub.connector ∧
  heap (NewConnector "http://y" "v" "l" "e" w).2 !! 0%nat = Some Stub.connector.
Proof.
  intros w.
  assert (heap w !! 0%nat = Some Stub.connector) as Hc by evaluate.
  split; [exact Hc|].
  exact (NewConnector_preserves_connectors (P := Scenario.rejecting) w
           "http://y" "v" "l" "e" 0%nat Stub.connector Hc).
Defined.

Lemma NewConnector_authenticates_once_witness :
  let P := Scenario.good in
  let ok := NewConnector "http://x" "u" "k" "d" (Stub.boot P 0%nat) in
  let bad := NewConnector "x" "u" "k" "d" (Stub.boot P 0%nat) in
  remote_calls (trace ok.2) =
    [(mkClient "http://x/xmlrpc/2/common" 0%nat, "authenticate",
      [VString "d"; VString "u"; VString "k"; VStringMap (Some ∅)])] ∧
  remote_calls (trace bad.2) = [].
Proof.
  intros P ok bad. split.
  - destruct (NewConnector_authenticates_once (P := Scenario.good)
                (Stub.boot P 0%nat) "http://x" "u" "k" "d") as (H & _).
    specialize (H ltac:(evaluate) ltac:(evaluate)). conclude H.
  - destruct (NewConnector_authenticates_once (P := Scenario.good)
                (Stub.boot P 0%nat) "x" "u" "k" "d") as (_ & H).
    assert (is_Some (Stub.dial ("x" +:+ "/xmlrpc/2/common"))) as Hdown
      by (vm_compute; eauto).
    specialize (H (or_introl Hdown)). conclude H.
Defined.

Lemma NewConnector_authentication_errors_witness :
  let P := Outage.platform in
  let out := NewConnector "http://x" "u" "k" "d" (Stub.boot P 0%nat) in
  ∃ err, out.1 = Returns (None, Some err) ∧ Unwrap err = Some Stub.timeout ∧
         Error err = "authentication failed: " +:+ Error Stub.timeout.
Proof.
  intros P out.
  destruct (NewConnector_authentication_errors (P := Outage.platform)
              (Stub.boot P 0%nat) "http://x" "u" "k" "d"
              ltac:(evaluate) ltac:(evaluate)) as (H & _).
  exact (H Stub.timeout ltac:(evaluate)).
Defined.

Lemma NewConnector_logs_success_only_witness :
  let out := NewConnector (P := Scenario.rejecting) "http://x" "u" "k" "d"
               (Stub.boot Scenario.rejecting 0%nat) in
  out.1 = Returns (None, Some (errorString
            "authentication failed: invalid credentials")) ∧
  log_lines (trace out.2) = [].
Proof.
  intros out.
  assert (out.1 = Returns (None, Some (errorString
            "authentication failed: invalid credentials"))) as Hout by evaluate.
  split; [exact Hout|].
  destruct (NewConnector_logs_success_only (P := Scenario.rejecting)
              (Stub.boot Scenario.rejecting 0%nat) "http://x" "u" "k" "d")
    as (_ & H).
  exact (H _ Hout).
Defined.

Lemma built_connector_sends_session_witness :
  let P := Scenario.good in
  let out := NewConnector "http://x" "u" "k" "d" (Stub.boot P 0%nat) in
  out.1 = Returns (Some 0%nat, None) ∧
  (DeleteRecord 0%nat "crm.lead" 5 out.2).1 ≠ Panics.
Proof.
  intros P out.
  assert (out.1 = Returns (Some 0%nat, None)) as Hout by evaluate.
  split; [exact Hout|].
  destruct (built_connector_sends_session (P := Scenario.good)
              (Stub.boot P 0%nat) out.2 "http://x" "u" "k" "d" 0%nat "crm.lead"
              Hout eq_refl) as (_ & _ & _ & H & _).
  exact (proj1 (H 5)).
Defined.

Lemma NewConnector_twice_independent_witness :
  let P := Scenario.good in
  let first := NewConnector "http://x" "u" "k" "d" (Stub.boot P 0%nat) in
  let second := NewConnector "http://y" "v" "l" "e" first.2 in
  first.1 = Returns (Some 0%nat, None) ∧
  second.1 = Returns (Some 1%nat, None) ∧
  heap second.2 !! 0%nat = heap first.2 !! 0%nat.
Proof.
  intros P first second.
  assert (first.1 = Returns (Some 0%nat, None)) as H1 by evaluate.
  assert (second.1 = Returns (Some 1%nat, None)) as H2 by evaluate.
  split; [exact H1|]. split; [exact H2|].
  destruct (NewConnector_twice_independent (P := Scenario.good) (Stub.boot P 0%nat)
              "http://x" "u" "k" "d" "http://y" "v" "l" "e" 0%nat 1%nat H1 H2)
    as (_ & H & _).
  exact H.
Defined.

Lemma LoadConfig_read_and_parse_errors_witness :
  let P := Scenario.good in
  (LoadConfig "missing.json" (Stub.boot P 0%nat)).1 =
    Returns (None, Some (wrapError
      "failed to read config file: open missing.json: no such file or directory"
      (Foreign "open missing.json: no such file or directory"))) ∧
  (LoadConfig "broken.json" (Stub.boot P 0%nat)).1 =
    Returns (None, Some (wrapError
      "failed to parse config file: unexpected end of JSON input"
      (Foreign "unexpected end of JSON input"))).
Proof.
  intros P. split.
  - destruct (LoadConfig_read_and_parse_errors (P := Scenario.good)
                (Stub.boot P 0%nat) "missing.json") as (H & _).
    specialize (H (Foreign "open missing.json: no such file or directory")
                  ltac:(evaluate)).
    conclude H.
  - destruct (LoadConfig_read_and_parse_errors (P := Scenario.good)
                (Stub.boot P 0%nat) "broken.json") as (_ & H).
    specialize (H (Foreign "unexpected end of JSON input")
                  ltac:(evaluate) ltac:(evaluate)).
    conclude H.
Defined.

Lemma NewConnectorFromConfig_config_error_offline_witness :
  let P := Scenario.good in
  let w := Stub.boot P 0%nat in
  let e := errorString "API key is required in config" in
  (LoadConfig "nokey.json" w).1 = Returns (None, Some e) ∧
  (NewConnectorFromConfig "nokey.json" w).1 = Returns (None, Some e) ∧
  endpoints_opened (trace (NewConnectorFromConfig "nokey.json" w).2) =
    endpoints_opened (trace w).
Proof.
  intros P w e.
  assert ((LoadConfig "nokey.json" w).1 = Returns (None, Some e)) as Hload
    by evaluate.
  split; [exact Hload|].
  destruct (NewConnectorFromConfig_config_error_offline (P := Scenario.good) w
              "nokey.json" e Hload) as (Hout & _ & _ & Hoff & _).
  split; [exact Hout | exact Hoff].
Defined.

Lemma NewConnectorFromConfig_uses_config_witness :
  let P := Scenario.good in
  let out := NewConnectorFromConfig "config.json" (Stub.boot P 0%nat) in
  out.1 = Returns (Some 0%nat, None) ∧
  ∃ config self,
    (LoadConfig "config.json" (Stub.boot P 0%nat)).1 = Returns (Some config, None) ∧
    heap out.2 !! 0%nat = Some self ∧
    Connector.URL self = Config.URL config.
Proof.
  intros P out.
  assert (out.1 = Returns (Some 0%nat, None)) as Hout by evaluate.
  split; [exact Hout|].
  destruct (NewConnectorFromConfig_uses_config (P := Scenario.good)
              (Stub.boot P 0%nat) "config.json" 0%nat Hout)
    as (config & self & Hload & Hself & Hurl & _).
  exists config, self. split; [exact Hload|]. split; [exact Hself | exact Hurl].
Defined.

(** The first example against the stub server: one lead, one line. *)
Example Example_on_stub :
  let P := Scenario.good in
  let show := λ v, match v with VString s => s | _ => "<nil>" end in
  (Example show (Stub.boot P 0%nat)).1 =
    Returns (["Lead: First lead" +:+ newline], Returned) ∧
  (ExampleNewConnectorFromConfig show (Stub.boot Outage.platform 0%nat)).1 =
    Returns ([], Exit 1).
Proof. intros P show. split; evaluate. Qed.
